(** * libveezi: the cache-augmented request layer of the Veezi API client

    A shallow embedding of [src/src/client.rs] (the [Client] and its caches),
    of the entity records of [session.rs], [film.rs], [package.rs],
    [screen.rs], [site.rs] and [attr.rs], and of the derived queries on
    [SessionList]. *)

From Stdlib Require Import ZArith Bool List String Ascii Sorting.Sorted Permutation.
From stdpp Require Import base gmap strings list pretty.
Import ListNotations.
Open Scope Z_scope.

(* ------------------------------------------------------------------ *)
(** ** Results and errors ([error.rs]) *)

Inductive result (T E : Type) : Type :=
| Ok (t : T)
| Err (e : E).
Arguments Ok {T E} t.
Arguments Err {T E} e.

(** [url::ParseError] (the variants the client can meet). *)
Inductive ParseError : Type :=
| EmptyHost
| RelativeUrlWithoutBase
| RelativeUrlWithCannotBeABaseBase.

(** [reqwest::Error]: network failure, non-success status
    ([error_for_status]) or a body that does not decode ([json::<T>]). *)
Inductive HttpError : Type :=
| NetworkError
| StatusError (code : N)
| DecodeError.

(** [LibVeeziError] *)
Inductive LibVeeziError : Type :=
| Http (err : HttpError)
| UrlParse (err : ParseError).

Definition ApiResult (T : Type) : Type := result T LibVeeziError.

(* ------------------------------------------------------------------ *)
(** ** Identifiers: transparent wrappers with the wrapped equality *)

(** [NaiveDateTime] as seconds since the epoch, [NaiveDate] as days since
    the epoch. *)
Abbreviation NaiveDateTime := Z (only parsing).
Abbreviation NaiveDate := Z (only parsing).

(** [NaiveDate::and_hms_opt] (always [Some] for a valid time of day). *)
Definition and_hms_opt (d : NaiveDate) (h m s : Z) : option NaiveDateTime :=
  if (0 <=? h) && (h <? 24) && (0 <=? m) && (m <? 60) && (0 <=? s) && (s <? 60)
  then Some (d * 86400 + h * 3600 + m * 60 + s) else None.

Record SessionId := MkSessionId { session_id_u32 : N }.
Record FilmId := MkFilmId { film_id_str : string }.
Record FilmPackageId := MkFilmPackageId { film_package_id_u32 : N }.
Record ScreenId := MkScreenId { screen_id_u32 : N }.
Record AttributeId := MkAttributeId { attribute_id_str : string }.
Record PersonId := MkPersonId { person_id_str : string }.

#[global] Instance SessionId_eq_dec : EqDecision SessionId.
Proof. solve_decision. Defined.
#[global] Instance SessionId_countable : Countable SessionId.
Proof.
  apply (inj_countable' session_id_u32 MkSessionId). by intros [].
Defined.
#[global] Instance FilmId_eq_dec : EqDecision FilmId.
Proof. solve_decision. Defined.
#[global] Instance FilmId_countable : Countable FilmId.
Proof.
  apply (inj_countable' film_id_str MkFilmId). by intros [].
Defined.
#[global] Instance FilmPackageId_eq_dec : EqDecision FilmPackageId.
Proof. solve_decision. Defined.
#[global] Instance FilmPackageId_countable : Countable FilmPackageId.
Proof.
  apply (inj_countable' film_package_id_u32 MkFilmPackageId). by intros [].
Defined.
#[global] Instance ScreenId_eq_dec : EqDecision ScreenId.
Proof. solve_decision. Defined.
#[global] Instance ScreenId_countable : Countable ScreenId.
Proof.
  apply (inj_countable' screen_id_u32 MkScreenId). by intros [].
Defined.
#[global] Instance AttributeId_eq_dec : EqDecision AttributeId.
Proof. solve_decision. Defined.
#[global] Instance AttributeId_countable : Countable AttributeId.
Proof.
  apply (inj_countable' attribute_id_str MkAttributeId). by intros [].
Defined.

(* ------------------------------------------------------------------ *)
(** ** Entities *)

Module SessionStatus.
Inductive t := Open | Closed | Planned.
#[global] Instance eq_dec : EqDecision t.
Proof. solve_decision. Defined.
End SessionStatus.

Module Seating.
Inductive t := Allocated | Select | Open.
End Seating.

Module ShowType.
Inductive t := Private | Public.
End ShowType.

Module FilmStatus.
Inductive t := Active | Inactive | Deleted.
End FilmStatus.

Module FilmFormat.
Inductive t := Film2D | Digital2D | Digital3D | Digital3DHFR | NotAFilm.
End FilmFormat.

Record SalesVia := MkSalesVia {
  kiosk : bool; pos : bool; www : bool; mx : bool; rsp : bool }.

Module Session.
Record t := MkSession {
  id : SessionId;
  film_id : FilmId;
  film_package_id : option FilmPackageId;
  title : string;
  screen_id : ScreenId;
  seating : Seating.t;
  are_complimentaries_allowed : bool;
  show_type : ShowType.t;
  sales_via : SalesVia;
  status : SessionStatus.t;
  pre_show_start_time : NaiveDateTime;
  sales_cut_off_time : NaiveDateTime;
  feature_start_time : NaiveDateTime;
  feature_end_time : NaiveDateTime;
  cleanup_end_time : NaiveDateTime;
  tickets_sold_out : bool;
  few_tickets_left : bool;
  seats_available : N;
  seats_held : N;
  seats_house : N;
  seats_sold : N;
  film_format : FilmFormat.t;
  price_card_name : string;
  attributes : list AttributeId;
  audio_language : option string }.

(** [Session::is_open_for_sales]; [now] is [Utc::now().naive_utc()]. *)
Definition is_open_for_sales (now : NaiveDateTime) (self : t) : bool :=
  bool_decide (status self = SessionStatus.Open)
  && (now <? sales_cut_off_time self)
  && (0 <? seats_available self)%N.
End Session.

(** [SessionList(Vec<Session>)] *)
Record SessionList := MkSessionList { session_list_vec : list Session.t }.

(** [impl From<Vec<Session>> for SessionList] *)
Definition SessionList_from (sessions : list Session.t) : SessionList :=
  MkSessionList sessions.

(** [SessionList::iter] *)
Definition SessionList_iter (self : SessionList) : list Session.t :=
  session_list_vec self.

Record Person := MkPerson {
  person_id : PersonId; first_name : string; last_name : string; role : string }.

Module Film.
Record t := MkFilm {
  id : FilmId;
  title : string;
  short_name : string;
  synopsis : option string;
  genre : string;
  signage_text : string;
  distributor : string;
  opening_date : NaiveDateTime;
  rating : option string;
  status : FilmStatus.t;
  content : option string;
  duration : N;
  display_sequence : N;
  national_code : option string;
  format : FilmFormat.t;
  is_restricted : bool;
  people : list Person;
  audio_language : option string;
  government_film_title : option string;
  film_poster_url : option string;
  film_poster_thumbnail_url : string;
  backdrop_image_url : option string;
  film_trailer_url : option string }.
End Film.

(** [PackageFilm]; the [f32] split percentage is kept as its raw bits. *)
Record PackageFilm := MkPackageFilm {
  pf_film_id : FilmId; pf_title : string; split_percent_bits : Z;
  trailer_duration : N; clean_up_duration : N; order : N }.

Module FilmPackage.
Record t := MkFilmPackage {
  id : FilmPackageId; title : string; status : FilmStatus.t;
  films : list PackageFilm }.
End FilmPackage.

Module Screen.
Record t := MkScreen {
  id : ScreenId; name : string; screen_number : string;
  has_custom_layout : bool; total_seats : N; house_seats : N }.
End Screen.

Module Site.
Record t := MkSite {
  name : string; short_name : string; legal_name : string;
  national_code : option string;
  address_1 : option string; address_2 : option string;
  address_3 : option string; post_code : option string;
  phone_1 : option string; phone_2 : option string; fax : option string;
  sales_tax_registration : option string;
  ticket_message_1 : option string; ticket_message_2 : option string;
  receipt_message_1 : option string; receipt_message_2 : option string;
  receipt_message_3 : option string; receipt_message_4 : option string;
  receipt_message_5 : option string; receipt_message_6 : option string;
  time_zone_identifier : string; country : string; screens : list N }.
End Site.

Module Attribute.
Record t := MkAttribute {
  id : AttributeId; description : string; short_name : string;
  font_color : string; background_color : string;
  show_on_sessions_with_no_comps : bool }.
End Attribute.

(* ------------------------------------------------------------------ *)
(** ** The cache store ([moka::future::Cache])

    An external crate: modelled from its documented contract. Each entry
    keeps the instant it was inserted; [get] answers only while that
    instant plus the time-to-live lies in the future, and does not renew
    it. [insert] stores the entry at once and evicts nothing: moka applies
    [max_capacity] only in its deferred maintenance pass, whose admission
    and eviction policy ([evict_pick], left abstract) chooses which entries
    survive. No call of this library runs that pass itself, and the model
    leaves it out, so a cache here is a moka cache between two passes; a
    pass evicts nothing while the entry count is within [max_capacity].
    Instants are seconds. *)

Section CacheRecord.
Context (K : Type) `{Countable K} (V : Type).

Record Cache := MkCache {
  entries : gmap K (V * Z);
  time_to_live : Z;
  max_capacity : N;
  evict_pick : gmap K (V * Z) -> option K }.
End CacheRecord.
Arguments MkCache {K _ _ V} entries time_to_live max_capacity evict_pick.
Arguments entries {K _ _ V} c.
Arguments time_to_live {K _ _ V} c.
Arguments max_capacity {K _ _ V} c.
Arguments evict_pick {K _ _ V} c.

Section CacheOps.
Context {K : Type} `{Countable K} {V : Type}.
Implicit Types (c : Cache K V) (k : K) (v : V).

Definition with_entries (m : gmap K (V * Z)) c : Cache K V :=
  MkCache m (time_to_live c) (max_capacity c) (evict_pick c).

(** [CacheBuilder::new(max).time_to_live(ttl).build()] *)
Definition cache_build (max ttl : _) (policy : gmap K (V * Z) -> option K)
  : Cache K V := MkCache ∅ ttl max policy.

(** [Cache::get]: present and not expired. *)
Definition cache_get (now : Z) k c : option V :=
  match entries c !! k with
  | Some (v, inserted) => if now <? inserted + time_to_live c then Some v else None
  | None => None
  end.

(** [Cache::insert]: stores the value and restarts its time-to-live. *)
Definition cache_insert (now : Z) k v c : Cache K V :=
  with_entries (<[k := (v, now)]> (entries c)) c.

(** [Cache::invalidate] *)
Definition cache_invalidate k c : Cache K V := with_entries (delete k (entries c)) c.

(** [Cache::invalidate_all] *)
Definition cache_invalidate_all c : Cache K V := with_entries ∅ c.
End CacheOps.

(** The eviction policy of the maintenance pass of every cache of a client
    (see [Cache]). *)
Definition EvictionPolicy : Type :=
  forall (K : Type) (EqK : EqDecision K) (CK : Countable K) (V : Type),
    gmap K (V * Z) -> option K.

(* ------------------------------------------------------------------ *)
(** ** URLs ([url::Url]), an external crate

    [Url::parse] succeeds on an absolute URL; one whose scheme is not
    followed by [//] (for instance [mailto:]) cannot be a base, and
    [join] on it fails. Path resolution of [join] is written as the
    concatenation it amounts to for a base ending in [/]. *)

Record Url := MkUrl { serialization : string; cannot_be_a_base : bool }.

Definition url_parse (s : string) : result Url ParseError :=
  if String.prefix "https://" s || String.prefix "http://" s then
    if String.eqb s "https://" || String.eqb s "http://" then Err EmptyHost
    else Ok (MkUrl s false)
  else if String.prefix "mailto:" s || String.prefix "data:" s then Ok (MkUrl s true)
  else Err RelativeUrlWithoutBase.

Definition url_join (base : Url) (endpoint : string) : result Url ParseError :=
  if cannot_be_a_base base then Err RelativeUrlWithCannotBeABaseBase
  else Ok (MkUrl (String.append (serialization base) endpoint) false).

(* ------------------------------------------------------------------ *)
(** ** The upstream API as seen by the client (the Transport)

    What the server answers, already decoded, to a GET of each endpoint,
    or the [reqwest] error the request ends in. *)

Record Net := MkNet {
  net_sessions : ApiResult (list Session.t);          (* v1/session *)
  net_web_sessions : ApiResult (list Session.t);      (* v1/websession *)
  net_session : SessionId -> ApiResult Session.t;      (* v1/session/{id} *)
  net_films : ApiResult (list Film.t);                (* v4/film *)
  net_film : FilmId -> ApiResult Film.t;               (* v4/film/{id} *)
  net_film_packages : ApiResult (list FilmPackage.t); (* v1/filmpackage *)
  net_film_package : FilmPackageId -> ApiResult FilmPackage.t;
  net_screens : ApiResult (list Screen.t);            (* v1/screen *)
  net_screen : ScreenId -> ApiResult Screen.t;         (* v1/screen/{id} *)
  net_site : ApiResult Site.t;                        (* v1/site *)
  net_attributes : ApiResult (list Attribute.t);      (* v1/attribute *)
  net_attribute : AttributeId -> ApiResult Attribute.t }.

(** The environment of one call: the current instant and the upstream. *)
Record Env := MkEnv { now : Z; net : Net }.

(* ------------------------------------------------------------------ *)
(** ** The client ([struct Client]) *)

(** The HTTP client itself is the Transport (see [Net]). Each cache is an
    [Option]; the [()]-keyed ones hold the full list responses. *)
Record Client := MkClient {
  base : Url;
  token : string;
  session_cache : option (Cache SessionId Session.t);
  session_list_cache : option (Cache unit SessionList);
  web_session_list_cache : option (Cache unit SessionList);
  film_cache : option (Cache FilmId Film.t);
  film_list_cache : option (Cache unit (list Film.t));
  film_package_cache : option (Cache FilmPackageId FilmPackage.t);
  film_package_list_cache : option (Cache unit (list FilmPackage.t));
  screen_cache : option (Cache ScreenId Screen.t);
  screen_list_cache : option (Cache unit (list Screen.t));
  attribute_cache : option (Cache AttributeId Attribute.t);
  attribute_list_cache : option (Cache unit (list Attribute.t));
  site_cache : option (Cache unit Site.t) }.

(** Field updates of [Client], used where the source mutates one cache. *)
Definition set_session_cache (x : option (Cache SessionId Session.t)) (c : Client) : Client :=
  MkClient (base c) (token c) x (session_list_cache c) (web_session_list_cache c) (film_cache c) (film_list_cache c) (film_package_cache c) (film_package_list_cache c) (screen_cache c) (screen_list_cache c) (attribute_cache c) (attribute_list_cache c) (site_cache c).
Definition set_session_list_cache (x : option (Cache unit SessionList)) (c : Client) : Client :=
  MkClient (base c) (token c) (session_cache c) x (web_session_list_cache c) (film_cache c) (film_list_cache c) (film_package_cache c) (film_package_list_cache c) (screen_cache c) (screen_list_cache c) (attribute_cache c) (attribute_list_cache c) (site_cache c).
Definition set_web_session_list_cache (x : option (Cache unit SessionList)) (c : Client) : Client :=
  MkClient (base c) (token c) (session_cache c) (session_list_cache c) x (film_cache c) (film_list_cache c) (film_package_cache c) (film_package_list_cache c) (screen_cache c) (screen_list_cache c) (attribute_cache c) (attribute_list_cache c) (site_cache c).
Definition set_film_cache (x : option (Cache FilmId Film.t)) (c : Client) : Client :=
  MkClient (base c) (token c) (session_cache c) (session_list_cache c) (web_session_list_cache c) x (film_list_cache c) (film_package_cache c) (film_package_list_cache c) (screen_cache c) (screen_list_cache c) (attribute_cache c) (attribute_list_cache c) (site_cache c).
Definition set_film_list_cache (x : option (Cache unit (list Film.t))) (c : Client) : Client :=
  MkClient (base c) (token c) (session_cache c) (session_list_cache c) (web_session_list_cache c) (film_cache c) x (film_package_cache c) (film_package_list_cache c) (screen_cache c) (screen_list_cache c) (attribute_cache c) (attribute_list_cache c) (site_cache c).
Definition set_film_package_cache (x : option (Cache FilmPackageId FilmPackage.t)) (c : Client) : Client :=
  MkClient (base c) (token c) (session_cache c) (session_list_cache c) (web_session_list_cache c) (film_cache c) (film_list_cache c) x (film_package_list_cache c) (screen_cache c) (screen_list_cache c) (attribute_cache c) (attribute_list_cache c) (site_cache c).
Definition set_film_package_list_cache (x : option (Cache unit (list FilmPackage.t))) (c : Client) : Client :=
  MkClient (base c) (token c) (session_cache c) (session_list_cache c) (web_session_list_cache c) (film_cache c) (film_list_cache c) (film_package_cache c) x (screen_cache c) (screen_list_cache c) (attribute_cache c) (attribute_list_cache c) (site_cache c).
Definition set_screen_cache (x : option (Cache ScreenId Screen.t)) (c : Client) : Client :=
  MkClient (base c) (token c) (session_cache c) (session_list_cache c) (web_session_list_cache c) (film_cache c) (film_list_cache c) (film_package_cache c) (film_package_list_cache c) x (screen_list_cache c) (attribute_cache c) (attribute_list_cache c) (site_cache c).
Definition set_screen_list_cache (x : option (Cache unit (list Screen.t))) (c : Client) : Client :=
  MkClient (base c) (token c) (session_cache c) (session_list_cache c) (web_session_list_cache c) (film_cache c) (film_list_cache c) (film_package_cache c) (film_package_list_cache c) (screen_cache c) x (attribute_cache c) (attribute_list_cache c) (site_cache c).
Definition set_attribute_cache (x : option (Cache AttributeId Attribute.t)) (c : Client) : Client :=
  MkClient (base c) (token c) (session_cache c) (session_list_cache c) (web_session_list_cache c) (film_cache c) (film_list_cache c) (film_package_cache c) (film_package_list_cache c) (screen_cache c) (screen_list_cache c) x (attribute_list_cache c) (site_cache c).
Definition set_attribute_list_cache (x : option (Cache unit (list Attribute.t))) (c : Client) : Client :=
  MkClient (base c) (token c) (session_cache c) (session_list_cache c) (web_session_list_cache c) (film_cache c) (film_list_cache c) (film_package_cache c) (film_package_list_cache c) (screen_cache c) (screen_list_cache c) (attribute_cache c) x (site_cache c).
Definition set_site_cache (x : option (Cache unit Site.t)) (c : Client) : Client :=
  MkClient (base c) (token c) (session_cache c) (session_list_cache c) (web_session_list_cache c) (film_cache c) (film_list_cache c) (film_package_cache c) (film_package_list_cache c) (screen_cache c) (screen_list_cache c) (attribute_cache c) (attribute_list_cache c) x.

(** [ClientBuilder]: optional [(ttl, max)] per entity type, [ttl] for the
    site. *)
Record ClientBuilder := MkClientBuilder {
  base_url : string;
  builder_token : string;
  session_cache_cfg : option (Z * N);
  film_cache_cfg : option (Z * N);
  film_package_cache_cfg : option (Z * N);
  screen_cache_cfg : option (Z * N);
  attribute_cache_cfg : option (Z * N);
  site_cache_cfg : option Z }.

(** [ClientBuilder::new] followed by [with_default_caching] *)
Definition builder_with_default_caching (base_url token : string) : ClientBuilder :=
  MkClientBuilder base_url token (Some (30, 1000%N)) (Some (300, 500%N))
    (Some (300, 500%N)) (Some (3600, 100%N)) (Some (300, 500%N)) (Some 300).

(** [Client::from_builder]; every cache is built with the eviction policy
    [pol] of the cache crate. *)
Definition from_builder (pol : EvictionPolicy) (b : ClientBuilder)
  : result Client ParseError :=
  let item {K} `{Countable K} {V} (cfg : option (Z * N)) : option (Cache K V) :=
    option_map (fun '(ttl, max) => cache_build max ttl (pol K _ _ V)) cfg in
  let list1 {V} (cfg : option (Z * N)) : option (Cache unit V) :=
    option_map (fun '(ttl, _) => cache_build 1%N ttl (pol unit unit_eq_dec unit_countable V)) cfg in
  match url_parse (base_url b) with
  | Err e => Err e
  | Ok base =>
      Ok (MkClient base (builder_token b)
            (item (session_cache_cfg b))
            (list1 (session_cache_cfg b))
            (list1 (session_cache_cfg b))
            (item (film_cache_cfg b))
            (list1 (film_cache_cfg b))
            (item (film_package_cache_cfg b))
            (list1 (film_package_cache_cfg b))
            (item (screen_cache_cfg b))
            (list1 (screen_cache_cfg b))
            (item (attribute_cache_cfg b))
            (list1 (attribute_cache_cfg b))
            (option_map (fun ttl => cache_build 1%N ttl (pol unit unit_eq_dec unit_countable Site.t))
               (site_cache_cfg b)))
  end.

(* ------------------------------------------------------------------ *)
(** ** The fetch monad

    A call reads the environment, threads the client's caches, may fail
    with a [LibVeeziError], and records every HTTP GET it issues (the
    Transport calls), in order. *)

Definition M (A : Type) : Type := Env -> Client -> ApiResult A * Client * list Url.

#[global] Instance M_ret : MRet M := fun A a env c => (Ok a, c, []).
#[global] Instance M_bind : MBind M := fun A B f m env c =>
  match m env c with
  | (Ok a, c1, r1) => let '(res, c2, r2) := f a env c1 in (res, c2, r1 ++ r2)
  | (Err e, c1, r1) => (Err e, c1, r1)
  end.

Definition ask_now : M Z := fun env c => (Ok (now env), c, []).
Definition read_client {A} (f : Client -> A) : M A := fun env c => (Ok (f c), c, []).
Definition modify_client (f : Client -> Client) : M unit := fun env c => (Ok tt, f c, []).

(** [Client::get_json]: join the endpoint onto the base URL (the [?] on
    [join] returns a [UrlParse] error before any request), then one GET
    answered by the upstream. *)
Definition get_json {T} (endpoint : string) (answer : Net -> ApiResult T) : M T :=
  fun env c =>
    match url_join (base c) endpoint with
    | Err e => (Err (UrlParse e), c, [])
    | Ok url => (answer (net env), c, [url])
    end.

(* ------------------------------------------------------------------ *)
(** ** The fetch-or-populate pattern

    Every "list all" method of [Client] ([list_sessions],
    [list_web_sessions], [list_films], [list_film_packages],
    [list_screens], [list_attributes]) is the same code over a different
    endpoint and pair of caches; so is every "get by id" method
    ([get_session], [get_film], [get_film_package], [get_screen],
    [get_attribute], and [get_site] with the key [()]). [ListOps] and
    [ItemOps] collect what differs: the endpoint, the conversion of the
    decoded [Vec] ([SessionList::from] or none), the id used as item-cache
    key, and which fields of [Client] hold the caches. *)

Record ListOps (K : Type) `{Countable K} (V L : Type) := MkListOps {
  lo_endpoint : string;
  lo_answer : Net -> ApiResult (list V);
  lo_from : list V -> L;
  lo_iter : L -> list V;
  lo_id : V -> K;
  lo_list_cache : Client -> option (Cache unit L);
  lo_set_list_cache : option (Cache unit L) -> Client -> Client;
  lo_item_cache : Client -> option (Cache K V);
  lo_set_item_cache : option (Cache K V) -> Client -> Client }.
Arguments MkListOps {K _ _ V L}.
Arguments lo_endpoint {K _ _ V L} _.
Arguments lo_answer {K _ _ V L} _.
Arguments lo_from {K _ _ V L} _ _.
Arguments lo_iter {K _ _ V L} _ _.
Arguments lo_id {K _ _ V L} _ _.
Arguments lo_list_cache {K _ _ V L} _ _.
Arguments lo_set_list_cache {K _ _ V L} _ _ _.
Arguments lo_item_cache {K _ _ V L} _ _.
Arguments lo_set_item_cache {K _ _ V L} _ _ _.

Record ItemOps (K : Type) `{Countable K} (V : Type) := MkItemOps {
  io_endpoint : K -> string;
  io_answer : Net -> K -> ApiResult V;
  io_cache : Client -> option (Cache K V);
  io_set_cache : option (Cache K V) -> Client -> Client }.
Arguments MkItemOps {K _ _ V}.
Arguments io_endpoint {K _ _ V} _ _.
Arguments io_answer {K _ _ V} _ _ _.
Arguments io_cache {K _ _ V} _ _.
Arguments io_set_cache {K _ _ V} _ _ _.

Section Pattern.
Context {K : Type} `{Countable K} {V L : Type}.

(** [for x in xs { cache.insert(id(x), x.clone()).await; }] *)
Fixpoint backfill (now : Z) (id : V -> K) (xs : list V) (ic : Cache K V) : Cache K V :=
  match xs with
  | [] => ic
  | x :: xs' => backfill now id xs' (cache_insert now (id x) x ic)
  end.

Definition list_fetch_raw (o : ListOps K V L) : M L :=
  v ← get_json (lo_endpoint o) (lo_answer o);
  mret (lo_from o v).

(** The body of [list_sessions], [list_films], ...:
    no list cache: fetch; hit: the cached list; miss: fetch, insert the
    list under [()], then insert every member into the item cache if
    there is one. *)
Definition list_all (o : ListOps K V L) : M L :=
  cache ← read_client (lo_list_cache o);
  match cache with
  | None => list_fetch_raw o
  | Some cache =>
      t ← ask_now;
      match cache_get t tt cache with
      | Some cached => mret cached
      | None =>
          items ← list_fetch_raw o;
          modify_client (lo_set_list_cache o (Some (cache_insert t tt items cache)));;
          item_cache ← read_client (lo_item_cache o);
          match item_cache with
          | Some ic =>
              modify_client (lo_set_item_cache o (Some (backfill t (lo_id o) (lo_iter o items) ic)));;
              mret items
          | None => mret items
          end
      end
  end.

Definition item_fetch_raw (o : ItemOps K V) (k : K) : M V :=
  get_json (io_endpoint o k) (fun n => io_answer o n k).

(** The body of [get_session], [get_film], ...: no item cache: fetch;
    hit: the cached value; miss: fetch and insert under the requested
    id. *)
Definition get_by_id (o : ItemOps K V) (k : K) : M V :=
  cache ← read_client (io_cache o);
  match cache with
  | None => item_fetch_raw o k
  | Some cache =>
      t ← ask_now;
      match cache_get t k cache with
      | Some cached => mret cached
      | None =>
          v ← item_fetch_raw o k;
          modify_client (io_set_cache o (Some (cache_insert t k v cache)));;
          mret v
      end
  end.

(** [invalidate_cached_session], [invalidate_cached_film], ...:
    the id leaves the item cache, the list cache is cleared. *)
Definition invalidate_cached (o : ListOps K V L) (k : K) (c : Client) : Client :=
  let c1 := match lo_item_cache o c with
            | Some ic => lo_set_item_cache o (Some (cache_invalidate k ic)) c
            | None => c
            end in
  match lo_list_cache o c1 with
  | Some lc => lo_set_list_cache o (Some (cache_invalidate_all lc)) c1
  | None => c1
  end.

(** [invalidate_all_cached_sessions], [invalidate_all_cached_films], ... *)
Definition invalidate_all_cached (o : ListOps K V L) (c : Client) : Client :=
  let c1 := match lo_item_cache o c with
            | Some ic => lo_set_item_cache o (Some (cache_invalidate_all ic)) c
            | None => c
            end in
  match lo_list_cache o c1 with
  | Some lc => lo_set_list_cache o (Some (cache_invalidate_all lc)) c1
  | None => c1
  end.

(** [get_films_batch], [get_sessions_batch]: one [get_*] per id, in
    order, stopping at the first error. *)
Fixpoint get_batch (o : ItemOps K V) (ids : list K) : M (list V) :=
  match ids with
  | [] => mret []
  | k :: ks => v ← get_by_id o k; vs ← get_batch o ks; mret (v :: vs)
  end.
End Pattern.

(* ------------------------------------------------------------------ *)
(** ** The methods of [Client] *)

Definition session_list_ops : ListOps SessionId Session.t SessionList :=
  MkListOps "v1/session" net_sessions SessionList_from SessionList_iter Session.id
    session_list_cache set_session_list_cache session_cache set_session_cache.

Definition web_session_list_ops : ListOps SessionId Session.t SessionList :=
  MkListOps "v1/websession" net_web_sessions SessionList_from SessionList_iter Session.id
    web_session_list_cache set_web_session_list_cache session_cache set_session_cache.

Definition film_list_ops : ListOps FilmId Film.t (list Film.t) :=
  MkListOps "v4/film" net_films (fun v => v) (fun v => v) Film.id
    film_list_cache set_film_list_cache film_cache set_film_cache.

Definition film_package_list_ops : ListOps FilmPackageId FilmPackage.t (list FilmPackage.t) :=
  MkListOps "v1/filmpackage" net_film_packages (fun v => v) (fun v => v) FilmPackage.id
    film_package_list_cache set_film_package_list_cache
    film_package_cache set_film_package_cache.

Definition screen_list_ops : ListOps ScreenId Screen.t (list Screen.t) :=
  MkListOps "v1/screen" net_screens (fun v => v) (fun v => v) Screen.id
    screen_list_cache set_screen_list_cache screen_cache set_screen_cache.

Definition attribute_list_ops : ListOps AttributeId Attribute.t (list Attribute.t) :=
  MkListOps "v1/attribute" net_attributes (fun v => v) (fun v => v) Attribute.id
    attribute_list_cache set_attribute_list_cache attribute_cache set_attribute_cache.

Definition session_item_ops : ItemOps SessionId Session.t :=
  MkItemOps (fun id => String.append "v1/session/" (pretty (session_id_u32 id))) net_session
    session_cache set_session_cache.

Definition film_item_ops : ItemOps FilmId Film.t :=
  MkItemOps (fun id => String.append "v4/film/" (film_id_str id)) net_film film_cache set_film_cache.

Definition film_package_item_ops : ItemOps FilmPackageId FilmPackage.t :=
  MkItemOps (fun id => String.append "v1/filmpackage/" (pretty (film_package_id_u32 id)))
    net_film_package film_package_cache set_film_package_cache.

Definition screen_item_ops : ItemOps ScreenId Screen.t :=
  MkItemOps (fun id => String.append "v1/screen/" (pretty (screen_id_u32 id))) net_screen
    screen_cache set_screen_cache.

Definition attribute_item_ops : ItemOps AttributeId Attribute.t :=
  MkItemOps (fun id => String.append "v1/attribute/" (attribute_id_str id)) net_attribute
    attribute_cache set_attribute_cache.

(** [get_site]: the same hit/miss logic on the single-slot site cache. *)
Definition site_item_ops : ItemOps unit Site.t :=
  MkItemOps (fun _ => "v1/site") (fun n _ => net_site n) site_cache set_site_cache.

Definition list_sessions : M SessionList := list_all session_list_ops.
Definition list_web_sessions : M SessionList := list_all web_session_list_ops.
Definition list_films : M (list Film.t) := list_all film_list_ops.
Definition list_film_packages : M (list FilmPackage.t) := list_all film_package_list_ops.
Definition list_screens : M (list Screen.t) := list_all screen_list_ops.
Definition list_attributes : M (list Attribute.t) := list_all attribute_list_ops.

Definition get_session (id : SessionId) : M Session.t := get_by_id session_item_ops id.
Definition get_film (id : FilmId) : M Film.t := get_by_id film_item_ops id.
Definition get_film_package (id : FilmPackageId) : M FilmPackage.t :=
  get_by_id film_package_item_ops id.
Definition get_screen (id : ScreenId) : M Screen.t := get_by_id screen_item_ops id.
Definition get_attribute (id : AttributeId) : M Attribute.t := get_by_id attribute_item_ops id.
Definition get_site : M Site.t := get_by_id site_item_ops tt.

Definition get_films_batch (film_ids : list FilmId) : M (list Film.t) :=
  get_batch film_item_ops film_ids.
Definition get_sessions_batch (session_ids : list SessionId) : M (list Session.t) :=
  get_batch session_item_ops session_ids.

Definition invalidate_cached_session (id : SessionId) : Client -> Client :=
  invalidate_cached session_list_ops id.
Definition invalidate_all_cached_sessions : Client -> Client :=
  invalidate_all_cached session_list_ops.

(** [invalidate_all_cached_web_sessions]: only the web session list. *)
Definition invalidate_all_cached_web_sessions (c : Client) : Client :=
  match web_session_list_cache c with
  | Some lc => set_web_session_list_cache (Some (cache_invalidate_all lc)) c
  | None => c
  end.

Definition invalidate_cached_film (id : FilmId) : Client -> Client :=
  invalidate_cached film_list_ops id.
Definition invalidate_all_cached_films : Client -> Client :=
  invalidate_all_cached film_list_ops.
Definition invalidate_cached_film_package (id : FilmPackageId) : Client -> Client :=
  invalidate_cached film_package_list_ops id.
Definition invalidate_all_cached_film_packages : Client -> Client :=
  invalidate_all_cached film_package_list_ops.
Definition invalidate_cached_screen (id : ScreenId) : Client -> Client :=
  invalidate_cached screen_list_ops id.
Definition invalidate_all_cached_screens : Client -> Client :=
  invalidate_all_cached screen_list_ops.
Definition invalidate_cached_attribute (id : AttributeId) : Client -> Client :=
  invalidate_cached attribute_list_ops id.
Definition invalidate_all_cached_attributes : Client -> Client :=
  invalidate_all_cached attribute_list_ops.

Definition invalidate_cached_site (c : Client) : Client :=
  match site_cache c with
  | Some sc => set_site_cache (Some (cache_invalidate_all sc)) c
  | None => c
  end.

(** [invalidate_all_caches], in the order of the source. *)
Definition invalidate_all_caches (c : Client) : Client :=
  invalidate_cached_site
    (invalidate_all_cached_attributes
       (invalidate_all_cached_screens
          (invalidate_all_cached_film_packages
             (invalidate_all_cached_films
                (invalidate_all_cached_web_sessions
                   (invalidate_all_cached_sessions c)))))).

(** Every invalidation method of [Client]. *)
Inductive Invalidation :=
| InvalidateAllCaches
| InvalidateCachedSession (id : SessionId)
| InvalidateAllCachedSessions
| InvalidateAllCachedWebSessions
| InvalidateCachedFilm (id : FilmId)
| InvalidateAllCachedFilms
| InvalidateCachedFilmPackage (id : FilmPackageId)
| InvalidateAllCachedFilmPackages
| InvalidateCachedScreen (id : ScreenId)
| InvalidateAllCachedScreens
| InvalidateCachedAttribute (id : AttributeId)
| InvalidateAllCachedAttributes
| InvalidateCachedSite.

Definition run_invalidation (i : Invalidation) : Client -> Client :=
  match i with
  | InvalidateAllCaches => invalidate_all_caches
  | InvalidateCachedSession id => invalidate_cached_session id
  | InvalidateAllCachedSessions => invalidate_all_cached_sessions
  | InvalidateAllCachedWebSessions => invalidate_all_cached_web_sessions
  | InvalidateCachedFilm id => invalidate_cached_film id
  | InvalidateAllCachedFilms => invalidate_all_cached_films
  | InvalidateCachedFilmPackage id => invalidate_cached_film_package id
  | InvalidateAllCachedFilmPackages => invalidate_all_cached_film_packages
  | InvalidateCachedScreen id => invalidate_cached_screen id
  | InvalidateAllCachedScreens => invalidate_all_cached_screens
  | InvalidateCachedAttribute id => invalidate_cached_attribute id
  | InvalidateAllCachedAttributes => invalidate_all_cached_attributes
  | InvalidateCachedSite => invalidate_cached_site
  end.

(* ------------------------------------------------------------------ *)
(** ** Derived queries on [SessionList] *)

(** [SessionList::filter_by_time_range] *)
Definition filter_by_time_range (self : SessionList) (start end_ : NaiveDateTime)
  : SessionList :=
  MkSessionList (filter (fun session =>
    let date := Session.pre_show_start_time session in
    (start <=? date) && (date <=? end_)) (session_list_vec self)).

(** The [expect("midnight should exist")] of [filter_by_date_range]. *)
Definition midnight (d : NaiveDate) : NaiveDateTime :=
  match and_hms_opt d 0 0 0 with Some t => t | None => d * 86400 end.

(** [SessionList::filter_by_date_range] *)
Definition filter_by_date_range (self : SessionList) (start end_ : NaiveDate) : SessionList :=
  filter_by_time_range self (midnight start) (midnight end_).

(** The loop of [SessionList::films]: one [get_film] per film id not seen
    before, in order. *)
Fixpoint films_go (seen_ids : list FilmId) (sessions : list Session.t) : M (list Film.t) :=
  match sessions with
  | [] => mret []
  | session :: rest =>
      if bool_decide (Session.film_id session ∈ seen_ids) then films_go seen_ids rest
      else
        film ← get_film (Session.film_id session);
        films ← films_go (seen_ids ++ [Session.film_id session]) rest;
        mret (film :: films)
  end.

(** [SessionList::films] *)
Definition SessionList_films (self : SessionList) : M (list Film.t) :=
  films_go [] (session_list_vec self).

(** [Client::list_films_with_sessions_in_date_range] *)
Definition list_films_with_sessions_in_date_range (start end_ : NaiveDate) : M (list Film.t) :=
  sessions ← list_sessions;
  SessionList_films (filter_by_date_range sessions start end_).

(* ------------------------------------------------------------------ *)
(** ** Concrete inputs used by the examples below *)

(** An eviction policy: the first key in the map's order. *)
Definition first_key_policy : EvictionPolicy :=
  fun K _ _ V m => match map_to_list m with (k, _) :: _ => Some k | [] => None end.

Definition sample_session (n : N) (film : string) (start seats : Z) : Session.t :=
  Session.MkSession (MkSessionId n) (MkFilmId film) None "Feature" (MkScreenId 1)
    Seating.Allocated true ShowType.Public (MkSalesVia true true true false false)
    SessionStatus.Open start (start + 600) (start + 900) (start + 7200) (start + 8100)
    false false (Z.to_N seats) 0 0 0 FilmFormat.Digital2D "Standard" [] None.

Definition sample_film (film : string) : Film.t :=
  Film.MkFilm (MkFilmId film) film film None "Drama" film "Distributor" 0 None
    FilmStatus.Active None 120 1 None FilmFormat.Digital2D false [] None None None ""
    None None.

Definition sample_package (n : N) : FilmPackage.t :=
  FilmPackage.MkFilmPackage (MkFilmPackageId n) "Double feature" FilmStatus.Active [].

Definition sample_site : Site.t :=
  Site.MkSite "Site" "S" "Site Ltd" None None None None None None None None None
    None None None None None None None None "UTC" "NZ" [1%N].

(** An upstream that serves the given lists on [v1/session] and
    [v1/websession], the given film packages, any session of the two lists
    by id, and any film or film package by id. *)
Definition sample_net (sessions web : list Session.t) (packages : list FilmPackage.t) : Net :=
  MkNet (Ok sessions) (Ok web)
    (fun id => match filter (fun s => bool_decide (Session.id s = id)) (sessions ++ web) with
               | s :: _ => Ok s | [] => Err (Http (StatusError 404)) end)
    (Ok []) (fun id => Ok (sample_film (film_id_str id)))
    (Ok packages) (fun id => Ok (sample_package (film_package_id_u32 id)))
    (Ok []) (fun _ => Err (Http (StatusError 404))) (Ok sample_site)
    (Ok []) (fun _ => Err (Http (StatusError 404))).

(** A builder with the given session and film package item-cache
    capacities (30 s and 300 s time-to-live). *)
Definition sample_builder (session_max package_max : N) : ClientBuilder :=
  MkClientBuilder "https://api.us.veezi.com/" "token" (Some (30, session_max))
    None (Some (300, package_max)) None None None.

Definition sample_client (session_max package_max : N) : Client :=
  match from_builder first_key_policy (sample_builder session_max package_max) with
  | Ok c => c
  | Err _ => MkClient (MkUrl "" true) "" None None None None None None None None None
               None None None
  end.

(** Three sessions (two of one film), at 100 s, 200 s and 300 s. *)
Definition sample_sessions : list Session.t :=
  [sample_session 1 "F1" 100 5; sample_session 2 "F1" 200 5; sample_session 3 "F2" 300 0].

Definition sample_env : Env :=
  MkEnv 1000 (sample_net sample_sessions [sample_session 7 "F3" 400 9]
                [sample_package 1; sample_package 2]).

(* ------------------------------------------------------------------ *)
(** ** The properties checked, per instance of the pattern *)

(** The field accessors of an instance read back what they write, and
    leave the other cache and the base URL alone. *)
Record list_ops_lawful {K} `{Countable K} {V L} (o : ListOps K V L) : Prop := {
  ll_list_set : forall x c, lo_list_cache o (lo_set_list_cache o x c) = x;
  ll_item_set_list : forall x c, lo_item_cache o (lo_set_list_cache o x c) = lo_item_cache o c;
  ll_item_set : forall x c, lo_item_cache o (lo_set_item_cache o x c) = x;
  ll_list_set_item : forall x c, lo_list_cache o (lo_set_item_cache o x c) = lo_list_cache o c;
  ll_base_list : forall x c, base (lo_set_list_cache o x c) = base c;
  ll_base_item : forall x c, base (lo_set_item_cache o x c) = base c }.

Record item_ops_lawful {K} `{Countable K} {V} (o : ItemOps K V) : Prop := {
  il_set : forall x c, io_cache o (io_set_cache o x c) = x;
  il_base : forall x c, base (io_set_cache o x c) = base c }.

(** An item instance works on the item cache of a list instance. *)
Definition ops_share_item_cache {K} `{Countable K} {V L}
    (o : ListOps K V L) (io : ItemOps K V) : Prop :=
  (forall c, io_cache io c = lo_item_cache o c) /\
  (forall x c, io_set_cache io x c = lo_set_item_cache o x c).


(** A successful list miss is one Transport call; when the item cache has
    room for the whole list (so that no maintenance pass evicts a member),
    a "get by id" for each member's id within the time-to-live of the
    backfill is then served from the item cache. *)
Definition list_then_get_contract {K} `{Countable K} {V L}
    (o : ListOps K V L) (io : ItemOps K V) : Prop :=
  forall env c lc ic l c' reqs,
    lo_list_cache o c = Some lc -> lo_item_cache o c = Some ic ->
    cache_get (now env) tt lc = None ->
    list_all o env c = (Ok l, c', reqs) ->
    (size (entries ic) + length (lo_iter o l) <= N.to_nat (max_capacity ic))%nat ->
    length reqs = 1%nat /\
    forall env', now env' < now env + time_to_live ic ->
      exists vs, get_batch io (map (lo_id o) (lo_iter o l)) env' c' = (Ok vs, c', []).

(** The "get by id" contract, and a repeated get within the time-to-live
    of the entry answered by the first. *)
Definition get_by_id_contract {K} `{Countable K} {V} (io : ItemOps K V) : Prop :=
  forall env c k,
    (io_cache io c = None -> get_by_id io k env c = item_fetch_raw io k env c) /\
    (forall ic v, io_cache io c = Some ic -> cache_get (now env) k ic = Some v ->
       get_by_id io k env c = (Ok v, c, [])) /\
    (forall ic, io_cache io c = Some ic -> cache_get (now env) k ic = None ->
       get_by_id io k env c =
       match item_fetch_raw io k env c with
       | (Ok v, c1, r) => (Ok v, io_set_cache io (Some (cache_insert (now env) k v ic)) c1, r)
       | (Err e, c1, r) => (Err e, c1, r)
       end) /\
    (forall ic v c' r, io_cache io c = Some ic -> get_by_id io k env c = (Ok v, c', r) ->
       exists ic' t, io_cache io c' = Some ic' /\ entries ic' !! k = Some (v, t) /\
         forall env', now env' < t + time_to_live ic' ->
           get_by_id io k env' c' = (Ok v, c', [])).

(** Invalidating one id drops it from the item cache and empties the list
    cache; the next get of that id and the next list both fetch. *)
Definition invalidate_contract {K} `{Countable K} {V L}
    (o : ListOps K V L) (io : ItemOps K V) : Prop :=
  forall c k ic lc,
    lo_item_cache o c = Some ic -> lo_list_cache o c = Some lc ->
    let c' := invalidate_cached o k c in
    (exists ic' lc', lo_item_cache o c' = Some ic' /\ lo_list_cache o c' = Some lc' /\
       entries ic' = delete k (entries ic) /\ entries lc' = ∅) /\
    (forall env, let '(r1, _, q1) := get_by_id io k env c' in
                 let '(r2, _, q2) := item_fetch_raw io k env c' in r1 = r2 /\ q1 = q2) /\
    (forall env, let '(r1, _, q1) := list_all o env c' in
                 let '(r2, _, q2) := list_fetch_raw o env c' in r1 = r2 /\ q1 = q2).

(** A failed list leaves the client as it was and answers the error of
    the URL join or of the one request. *)
Definition list_failure_clean {K} `{Countable K} {V L} (o : ListOps K V L) : Prop :=
  forall env c e c' reqs,
    list_all o env c = (Err e, c', reqs) ->
    c' = c /\
    ((exists pe, url_join (base c) (lo_endpoint o) = Err pe /\ e = UrlParse pe /\ reqs = []) \/
     (exists u, url_join (base c) (lo_endpoint o) = Ok u /\ lo_answer o (net env) = Err e /\
                reqs = [u])).

Definition item_failure_clean {K} `{Countable K} {V} (io : ItemOps K V) : Prop :=
  forall env c k e c' reqs,
    get_by_id io k env c = (Err e, c', reqs) ->
    c' = c /\
    ((exists pe, url_join (base c) (io_endpoint io k) = Err pe /\ e = UrlParse pe /\ reqs = []) \/
     (exists u, url_join (base c) (io_endpoint io k) = Ok u /\ io_answer io (net env) k = Err e /\
                reqs = [u])).

(** The caches of the entity types other than sessions. *)
Definition non_session_caches (c : Client) :=
  (film_cache c, film_list_cache c, film_package_cache c, film_package_list_cache c,
   screen_cache c, screen_list_cache c, attribute_cache c, attribute_list_cache c,
   site_cache c).

(** A cache that is absent, or present with no entries. *)
Definition cache_empty {K} `{Countable K} {V} (o : option (Cache K V)) : Prop :=
  match o with Some c => entries c = ∅ | None => True end.

(** Every cache of the client is absent or empty. *)
Definition caches_empty (c : Client) : Prop :=
  cache_empty (session_cache c) /\ cache_empty (session_list_cache c) /\
  cache_empty (web_session_list_cache c) /\ cache_empty (film_cache c) /\
  cache_empty (film_list_cache c) /\ cache_empty (film_package_cache c) /\
  cache_empty (film_package_list_cache c) /\ cache_empty (screen_cache c) /\
  cache_empty (screen_list_cache c) /\ cache_empty (attribute_cache c) /\
  cache_empty (attribute_list_cache c) /\ cache_empty (site_cache c).

(* ------------------------------------------------------------------ *)
(** ** The builder methods of [ClientBuilder] *)

(** [ClientBuilder::new] (and [new_with_http]): no cache configured. *)
Definition ClientBuilder_new (base_url : string) (token : string) : ClientBuilder :=
  MkClientBuilder base_url token None None None None None None.

(** [ClientBuilder::build] *)
Definition build (pol : EvictionPolicy) (self : ClientBuilder) : result Client ParseError :=
  from_builder pol self.

(** [ClientBuilder::with_session_cache] ... [with_site_cache] *)
Definition with_session_cache (ttl : Z) (max : N) (self : ClientBuilder) : ClientBuilder :=
  MkClientBuilder (base_url self) (builder_token self) (Some (ttl, max)) (film_cache_cfg self)
    (film_package_cache_cfg self) (screen_cache_cfg self) (attribute_cache_cfg self)
    (site_cache_cfg self).
Definition with_film_cache (ttl : Z) (max : N) (self : ClientBuilder) : ClientBuilder :=
  MkClientBuilder (base_url self) (builder_token self) (session_cache_cfg self) (Some (ttl, max))
    (film_package_cache_cfg self) (screen_cache_cfg self) (attribute_cache_cfg self)
    (site_cache_cfg self).
Definition with_film_package_cache (ttl : Z) (max : N) (self : ClientBuilder) : ClientBuilder :=
  MkClientBuilder (base_url self) (builder_token self) (session_cache_cfg self) (film_cache_cfg self)
    (Some (ttl, max)) (screen_cache_cfg self) (attribute_cache_cfg self) (site_cache_cfg self).
Definition with_screen_cache (ttl : Z) (max : N) (self : ClientBuilder) : ClientBuilder :=
  MkClientBuilder (base_url self) (builder_token self) (session_cache_cfg self) (film_cache_cfg self)
    (film_package_cache_cfg self) (Some (ttl, max)) (attribute_cache_cfg self) (site_cache_cfg self).
Definition with_attribute_cache (ttl : Z) (max : N) (self : ClientBuilder) : ClientBuilder :=
  MkClientBuilder (base_url self) (builder_token self) (session_cache_cfg self) (film_cache_cfg self)
    (film_package_cache_cfg self) (screen_cache_cfg self) (Some (ttl, max)) (site_cache_cfg self).
Definition with_site_cache (ttl : Z) (self : ClientBuilder) : ClientBuilder :=
  MkClientBuilder (base_url self) (builder_token self) (session_cache_cfg self) (film_cache_cfg self)
    (film_package_cache_cfg self) (screen_cache_cfg self) (attribute_cache_cfg self) (Some ttl).

(** [ClientBuilder::with_default_caching] *)
Definition with_default_caching (self : ClientBuilder) : ClientBuilder :=
  with_site_cache 300
    (with_attribute_cache 300 500
       (with_screen_cache 3600 100
          (with_film_package_cache 300 500
             (with_film_cache 300 500
                (with_session_cache 30 1000 self))))).

(* ------------------------------------------------------------------ *)
(** ** More of [SessionList] ([session.rs]) *)

(** [SessionList::into_vec] *)
Definition SessionList_into_vec (self : SessionList) : list Session.t := session_list_vec self.

(** [SessionList::filter_by_screen] *)
Definition filter_by_screen (self : SessionList) (screen_id : ScreenId) : SessionList :=
  MkSessionList (filter (fun session => Session.screen_id session = screen_id)
                   (session_list_vec self)).

(** [SessionList::filter_by_film] *)
Definition filter_by_film (self : SessionList) (film_id : FilmId) : SessionList :=
  MkSessionList (filter (fun session => Session.film_id session = film_id)
                   (session_list_vec self)).

(** [SessionList::filter_containing_attribute] ([Vec::contains]) *)
Definition filter_containing_attribute (self : SessionList) (attribute_id : AttributeId)
  : SessionList :=
  MkSessionList (filter (fun session => attribute_id ∈ Session.attributes session)
                   (session_list_vec self)).

(** [NaiveDateTime::date]: the day of an instant (floor division). *)
Definition date (t : NaiveDateTime) : NaiveDate := t / 86400.

(** The loop body of [group_by_date]: the session joins the first group
    of its date ([iter_mut().find]), or a new group is pushed. *)
Fixpoint group_push (grouped : list (NaiveDate * list Session.t)) (d : NaiveDate)
    (session : Session.t) : list (NaiveDate * list Session.t) :=
  match grouped with
  | [] => [(d, [session])]
  | (d', sessions) :: rest =>
      if bool_decide (d' = d) then (d', sessions ++ [session]) :: rest
      else (d', sessions) :: group_push rest d session
  end.

(** [slice::sort_by] with [a.cmp(b)] on the dates: a stable sort, written
    as insertion after every element whose key is not greater. *)
Fixpoint insert_by_date (g : NaiveDate * list Session.t) (l : list (NaiveDate * list Session.t))
  : list (NaiveDate * list Session.t) :=
  match l with
  | [] => [g]
  | h :: t => if fst h <=? fst g then h :: insert_by_date g t else g :: h :: t
  end.

Definition sort_by_date (l : list (NaiveDate * list Session.t)) : list (NaiveDate * list Session.t) :=
  fold_left (fun acc g => insert_by_date g acc) l [].

(** [SessionList::group_by_date] *)
Definition group_by_date (self : SessionList) : list (NaiveDate * list Session.t) :=
  let grouped := fold_left (fun grouped session =>
                   group_push grouped (date (Session.pre_show_start_time session)) session)
                   (session_list_vec self) [] in
  sort_by_date grouped.

(** The loop of [SessionList::screens]: one [get_screen] per screen id not
    seen before, in order. *)
Fixpoint screens_go (seen_ids : list ScreenId) (sessions : list Session.t) : M (list Screen.t) :=
  match sessions with
  | [] => mret []
  | session :: rest =>
      if bool_decide (Session.screen_id session ∈ seen_ids) then screens_go seen_ids rest
      else
        screen ← get_screen (Session.screen_id session);
        screens ← screens_go (seen_ids ++ [Session.screen_id session]) rest;
        mret (screen :: screens)
  end.

(** [SessionList::screens] *)
Definition SessionList_screens (self : SessionList) : M (list Screen.t) :=
  screens_go [] (session_list_vec self).

(* ------------------------------------------------------------------ *)
(** ** The entity helpers ([film.rs], [screen.rs], [attr.rs]) *)

(** [Film::sessions] *)
Definition Film_sessions (self : Film.t) : M SessionList :=
  sessions ← list_sessions; mret (filter_by_film sessions (Film.id self)).

(** [Film::web_sessions] *)
Definition Film_web_sessions (self : Film.t) : M SessionList :=
  sessions ← list_web_sessions; mret (filter_by_film sessions (Film.id self)).

(** [Screen::sessions] *)
Definition Screen_sessions (self : Screen.t) : M SessionList :=
  sessions ← list_sessions; mret (filter_by_screen sessions (Screen.id self)).

(** [Attribute::sessions] *)
Definition Attribute_sessions (self : Attribute.t) : M SessionList :=
  sessions ← list_sessions; mret (filter_containing_attribute sessions (Attribute.id self)).

(** [Film::formatted_duration] ([u32] division and remainder). *)
Definition formatted_duration (self : Film.t) : string :=
  let hours := (Film.duration self / 60)%N in
  let minutes := (Film.duration self mod 60)%N in
  if bool_decide (minutes = 0%N) then String.append (pretty hours) "h"
  else String.append (pretty hours) (String.append "h " (String.append (pretty minutes) "m")).

#[global] Instance FilmStatus_eq_dec : EqDecision FilmStatus.t.
Proof. solve_decision. Defined.

(* ------------------------------------------------------------------ *)
(** ** The derived queries of [Client] *)

(** [get_film_by_title], [get_film_by_short_name], [get_film_by_signage_text]
    ([Iterator::find]: the first match). *)
Definition get_film_by_title (title : string) : M (option Film.t) :=
  films ← list_films; mret (find (fun film => String.eqb (Film.title film) title) films).
Definition get_film_by_short_name (short_name : string) : M (option Film.t) :=
  films ← list_films; mret (find (fun film => String.eqb (Film.short_name film) short_name) films).
Definition get_film_by_signage_text (signage_text : string) : M (option Film.t) :=
  films ← list_films;
  mret (find (fun film => String.eqb (Film.signage_text film) signage_text) films).

(** [list_films_by_genre], [list_films_by_distributor], [list_active_films] *)
Definition list_films_by_genre (genre : string) : M (list Film.t) :=
  films ← list_films; mret (filter (fun film => Film.genre film = genre) films).
Definition list_films_by_distributor (distributor : string) : M (list Film.t) :=
  films ← list_films; mret (filter (fun film => Film.distributor film = distributor) films).
Definition list_active_films : M (list Film.t) :=
  films ← list_films; mret (filter (fun film => Film.status film = FilmStatus.Active) films).

(** [list_films_with_sessions_in_time_range] *)
Definition list_films_with_sessions_in_time_range (start end_ : NaiveDateTime) : M (list Film.t) :=
  sessions ← list_sessions;
  SessionList_films (filter_by_time_range sessions start end_).

(** [list_films_now_showing] *)
Definition list_films_now_showing : M (list Film.t) :=
  sessions ← list_sessions; SessionList_films sessions.

(** [get_film_package_by_title], [list_film_packages_by_film_id]
    ([Iterator::any] over the package's films). *)
Definition get_film_package_by_title (title : string) : M (option FilmPackage.t) :=
  packages ← list_film_packages;
  mret (find (fun package => String.eqb (FilmPackage.title package) title) packages).
Definition list_film_packages_by_film_id (film_id : FilmId) : M (list FilmPackage.t) :=
  packages ← list_film_packages;
  mret (filter (fun package =>
          existsb (fun pf => bool_decide (pf_film_id pf = film_id)) (FilmPackage.films package)
          = true) packages).

(** [get_screen_by_number] *)
Definition get_screen_by_number (screen_number : string) : M (option Screen.t) :=
  screens ← list_screens;
  mret (find (fun screen => String.eqb (Screen.screen_number screen) screen_number) screens).

(** [get_attribute_by_short_name], [get_attribute_by_description] *)
Definition get_attribute_by_short_name (short_name : string) : M (option Attribute.t) :=
  attributes ← list_attributes;
  mret (find (fun attr => String.eqb (Attribute.short_name attr) short_name) attributes).
Definition get_attribute_by_description (description : string) : M (option Attribute.t) :=
  attributes ← list_attributes;
  mret (find (fun attr => String.eqb (Attribute.description attr) description) attributes).

(* ------------------------------------------------------------------ *)
(** ** Vocabulary for the properties below *)

(** The elements of [l] not in [seen] and not seen earlier in [l], in
    first-seen order. *)
Fixpoint first_seen {A} `{EqDecision A} (seen : list A) (l : list A) : list A :=
  match l with
  | [] => []
  | x :: rest =>
      if bool_decide (x ∈ seen) then first_seen seen rest
      else x :: first_seen (seen ++ [x]) rest
  end.

(** What an invalidation does to one optional cache. *)
Inductive cache_op (K : Type) := Keep | Clear | Drop (k : K).
Arguments Keep {K}.
Arguments Clear {K}.
Arguments Drop {K} k.

Definition apply_cache_op {K} `{Countable K} {V} (op : cache_op K) (o : option (Cache K V))
  : option (Cache K V) :=
  match op with
  | Keep => o
  | Clear => option_map cache_invalidate_all o
  | Drop k => option_map (cache_invalidate k) o
  end.

(** One [cache_op] per cache of [Client], in field order. *)
Record ClientOps := MkClientOps {
  op_session : cache_op SessionId; op_session_list : cache_op unit;
  op_web_session_list : cache_op unit; op_film : cache_op FilmId;
  op_film_list : cache_op unit; op_film_package : cache_op FilmPackageId;
  op_film_package_list : cache_op unit; op_screen : cache_op ScreenId;
  op_screen_list : cache_op unit; op_attribute : cache_op AttributeId;
  op_attribute_list : cache_op unit; op_site : cache_op unit }.

Definition apply_ops (os : ClientOps) (c : Client) : Client :=
  MkClient (base c) (token c)
    (apply_cache_op (op_session os) (session_cache c))
    (apply_cache_op (op_session_list os) (session_list_cache c))
    (apply_cache_op (op_web_session_list os) (web_session_list_cache c))
    (apply_cache_op (op_film os) (film_cache c))
    (apply_cache_op (op_film_list os) (film_list_cache c))
    (apply_cache_op (op_film_package os) (film_package_cache c))
    (apply_cache_op (op_film_package_list os) (film_package_list_cache c))
    (apply_cache_op (op_screen os) (screen_cache c))
    (apply_cache_op (op_screen_list os) (screen_list_cache c))
    (apply_cache_op (op_attribute os) (attribute_cache c))
    (apply_cache_op (op_attribute_list os) (attribute_list_cache c))
    (apply_cache_op (op_site os) (site_cache c)).

(** The contract of a "find by field" query over the listing [m]: on
    success it answers the listing's first element whose [key] is [x], or
    [None] when there is none, with the listing's requests and cache
    effect; an error of the listing is passed through. *)
Definition find_contract {A L} (m : M L) (iter : L -> list A) (key : A -> string)
    (f : string -> M (option A)) : Prop :=
  forall x env c r c' reqs,
    f x env c = (r, c', reqs) ->
    match r with
    | Ok (Some a) =>
        exists l l1 l2, m env c = (Ok l, c', reqs) /\ iter l = l1 ++ a :: l2 /\
          key a = x /\ Forall (fun b => key b <> x) l1
    | Ok None =>
        exists l, m env c = (Ok l, c', reqs) /\ Forall (fun b => key b <> x) (iter l)
    | Err e => m env c = (Err e, c', reqs)
    end.

(** The contract of a "filter" query over the listing [m]: on success its
    answer is the sublist of the listing's elements that satisfy [P], with
    the listing's requests and cache effect; an error is passed through. *)
Definition filter_contract {A L R} (m : M L) (iter : L -> list A) (iterR : R -> list A)
    (P : A -> Prop) (f : M R) : Prop :=
  forall env c r c' reqs,
    f env c = (r, c', reqs) ->
    match r with
    | Ok xs =>
        exists l, m env c = (Ok l, c', reqs) /\ sublist (iterR xs) (iter l) /\
          forall a, a ∈ iterR xs <-> a ∈ iter l /\ P a
    | Err e => m env c = (Err e, c', reqs)
    end.

(* ------------------------------------------------------------------ *)
(** ** More of [Film] ([film.rs]) and [Session] ([session.rs]) *)

(** [Film::is_3d], [Film::is_2d] ([matches!] on the format). *)
Definition is_3d (self : Film.t) : bool :=
  match Film.format self with FilmFormat.Digital3D | FilmFormat.Digital3DHFR => true | _ => false end.
Definition is_2d (self : Film.t) : bool :=
  match Film.format self with FilmFormat.Film2D | FilmFormat.Digital2D => true | _ => false end.

(** [Film::actors], [Film::directors]: the people with that role. *)
Definition actors (self : Film.t) : list Person :=
  filter (fun p => role p = "Actor") (Film.people self).
Definition directors (self : Film.t) : list Person :=
  filter (fun p => role p = "Director") (Film.people self).

(** [format!("{} {}", p.first_name, p.last_name)] *)
Definition person_display (p : Person) : string :=
  String.append (first_name p) (String.append " " (last_name p)).

(** [Film::actors_formatted], [Film::directors_formatted]
    ([join(", ")]). *)
Definition actors_formatted (self : Film.t) : string :=
  String.concat ", " (map person_display (actors self)).
Definition directors_formatted (self : Film.t) : string :=
  String.concat ", " (map person_display (directors self)).

(** [Session::film_package] *)
Definition Session_film_package (self : Session.t) : M (option FilmPackage.t) :=
  match Session.film_package_id self with
  | Some id => package ← get_film_package id; mret (Some package)
  | None => mret None
  end.

(** The loop of [Session::attributes]: [get_attribute] per id, [?] on
    each, pushed onto [attrs]. *)
Fixpoint session_attributes_go (attrs : list Attribute.t) (ids : list AttributeId)
  : M (list Attribute.t) :=
  match ids with
  | [] => mret attrs
  | attr_id :: rest => attr ← get_attribute attr_id; session_attributes_go (attrs ++ [attr]) rest
  end.

(** [Session::attributes] *)
Definition Session_attributes (self : Session.t) : M (list Attribute.t) :=
  session_attributes_go [] (Session.attributes self).

(* ------------------------------------------------------------------ *)
(** ** Vocabulary of the further properties *)

(** The day of a session's pre-show start, the key of [group_by_date]. *)
Definition session_date (s : Session.t) : NaiveDate := date (Session.pre_show_start_time s).

(** The groups of [group_by_date] before sorting: one per date, in order
    of first appearance, each with the sessions of that date. *)
Definition canon (p : list Session.t) : list (NaiveDate * list Session.t) :=
  map (fun d => (d, filter (fun s => session_date s = d) p)) (first_seen [] (map session_date p)).

Definition key_le (a b : NaiveDate * list Session.t) : Prop := fst a <= fst b.

(** What each invalidation method does, cache by cache. *)
Definition invalidation_ops (i : Invalidation) : ClientOps :=
  match i with
  | InvalidateAllCaches =>
      MkClientOps Clear Clear Clear Clear Clear Clear Clear Clear Clear Clear Clear Clear
  | InvalidateCachedSession id =>
      MkClientOps (Drop id) Clear Keep Keep Keep Keep Keep Keep Keep Keep Keep Keep
  | InvalidateAllCachedSessions =>
      MkClientOps Clear Clear Keep Keep Keep Keep Keep Keep Keep Keep Keep Keep
  | InvalidateAllCachedWebSessions =>
      MkClientOps Keep Keep Clear Keep Keep Keep Keep Keep Keep Keep Keep Keep
  | InvalidateCachedFilm id =>
      MkClientOps Keep Keep Keep (Drop id) Clear Keep Keep Keep Keep Keep Keep Keep
  | InvalidateAllCachedFilms =>
      MkClientOps Keep Keep Keep Clear Clear Keep Keep Keep Keep Keep Keep Keep
  | InvalidateCachedFilmPackage id =>
      MkClientOps Keep Keep Keep Keep Keep (Drop id) Clear Keep Keep Keep Keep Keep
  | InvalidateAllCachedFilmPackages =>
      MkClientOps Keep Keep Keep Keep Keep Clear Clear Keep Keep Keep Keep Keep
  | InvalidateCachedScreen id =>
      MkClientOps Keep Keep Keep Keep Keep Keep Keep (Drop id) Clear Keep Keep Keep
  | InvalidateAllCachedScreens =>
      MkClientOps Keep Keep Keep Keep Keep Keep Keep Clear Clear Keep Keep Keep
  | InvalidateCachedAttribute id =>
      MkClientOps Keep Keep Keep Keep Keep Keep Keep Keep Keep (Drop id) Clear Keep
  | InvalidateAllCachedAttributes =>
      MkClientOps Keep Keep Keep Keep Keep Keep Keep Keep Keep Clear Clear Keep
  | InvalidateCachedSite =>
      MkClientOps Keep Keep Keep Keep Keep Keep Keep Keep Keep Keep Keep Clear
  end.

(** The call [m] is the plain request [raw] and leaves the client as it
    is. *)
Definition uncached_call {A} (m raw : M A) (env : Env) (c : Client) : Prop :=
  m env c = raw env c /\ (let '(_, c', _) := m env c in c' = c).

(** Every character is one printed by [pretty] on [N]. *)
Fixpoint all_digits (s : string) : Prop :=
  match s with
  | EmptyString => True
  | String ch rest => (exists n, ch = pretty_N_char n) /\ all_digits rest
  end.

(** After a list-cache miss of [m] that succeeds, [m] on the client left
    answers from the cache while the entry is live. *)
Definition repeat_served {L} (m : M L) (list_cache : Client -> option (Cache unit L)) : Prop :=
  forall env c lc l c' reqs env',
    list_cache c = Some lc -> cache_get (now env) tt lc = None ->
    m env c = (Ok l, c', reqs) -> now env' < now env + time_to_live lc ->
    m env' c' = (Ok l, c', []).


(* ================================================================== *)
(** * Properties *)

(** ** The cache store *)

Section CacheLemmas.
Context {K : Type} `{Countable K} {V : Type}.
Implicit Types (c ic : Cache K V) (k : K) (v : V).

Lemma cache_insert_time_to_live now k v c :
  time_to_live (cache_insert now k v c) = time_to_live c.
Proof. reflexivity. Qed.

Lemma cache_insert_max_capacity now k v c :
  max_capacity (cache_insert now k v c) = max_capacity c.
Proof. reflexivity. Qed.

Lemma cache_insert_lookup_eq now k v c :
  entries (cache_insert now k v c) !! k = Some (v, now).
Proof. unfold cache_insert; cbn. apply lookup_insert_eq. Qed.

(** Another key keeps its entry. *)
Lemma cache_insert_lookup_ne now k v c k' :
  k <> k' -> entries (cache_insert now k v c) !! k' = entries c !! k'.
Proof. intros Hne. unfold cache_insert; cbn. by rewrite lookup_insert_ne. Qed.

Lemma backfill_time_to_live now (id : V -> K) xs ic :
  time_to_live (backfill now id xs ic) = time_to_live ic.
Proof. revert ic. induction xs as [| x xs IH]; intros ic; [done |]. cbn. by rewrite IH. Qed.

Lemma backfill_max_capacity now (id : V -> K) xs ic :
  max_capacity (backfill now id xs ic) = max_capacity ic.
Proof. revert ic. induction xs as [| x xs IH]; intros ic; [done |]. cbn. by rewrite IH. Qed.

(** A key none of the members has is untouched. *)
Lemma backfill_keep now (id : V -> K) xs ic k :
  k ∉ map id xs ->
  entries (backfill now id xs ic) !! k = entries ic !! k.
Proof.
  revert ic. induction xs as [| x xs IH]; intros ic Hk; cbn; [done |].
  assert (Hx : id x <> k) by (intros <-; apply Hk; left).
  assert (Hxs : k ∉ map id xs) by (intros Hin; apply Hk; by right).
  rewrite IH by done. by apply cache_insert_lookup_ne.
Qed.

Lemma backfill_other_none now (id : V -> K) xs ic k :
  k ∉ map id xs -> entries ic !! k = None -> entries (backfill now id xs ic) !! k = None.
Proof. intros Hk Hn. by rewrite backfill_keep. Qed.


(** Every member's id is cached at the instant of the backfill. *)
Lemma backfill_present now (id : V -> K) xs ic x :
  In x xs ->
  exists y, entries (backfill now id xs ic) !! id x = Some (y, now).
Proof.
  revert ic x. induction xs as [| x0 xs IH]; intros ic x Hin; [done |].
  cbn.
  destruct (decide (id x ∈ map id xs)) as [Hm | Hm].
  - apply list_elem_of_In, in_map_iff in Hm as [x' [Hx' Hin']].
    rewrite <- Hx'. by apply IH.
  - destruct Hin as [<- | Hin].
    + exists x0. rewrite backfill_keep by done. apply cache_insert_lookup_eq.
    + exfalso. apply Hm. apply list_elem_of_In, in_map_iff. eauto.
Qed.
End CacheLemmas.

(** ** Running the fetch-or-populate pattern *)

Section Running.
Context {K : Type} `{Countable K} {V L : Type}.

Lemma list_fetch_raw_eq (o : ListOps K V L) env c :
  list_fetch_raw o env c =
  match url_join (base c) (lo_endpoint o) with
  | Err e => (Err (UrlParse e), c, [])
  | Ok url =>
      (match lo_answer o (net env) with Ok v => Ok (lo_from o v) | Err e => Err e end,
       c, [url])
  end.
Proof.
  unfold list_fetch_raw, get_json. cbv [mbind M_bind mret M_ret].
  destruct (url_join _ _); [| done]. destruct (lo_answer o (net env)); done.
Qed.

Lemma list_all_eq (o : ListOps K V L) env c :
  list_all o env c =
  match lo_list_cache o c with
  | None => list_fetch_raw o env c
  | Some cache =>
      match cache_get (now env) tt cache with
      | Some cached => (Ok cached, c, [])
      | None =>
          match list_fetch_raw o env c with
          | (Ok items, c1, r) =>
              let c2 := lo_set_list_cache o (Some (cache_insert (now env) tt items cache)) c1 in
              (Ok items,
               match lo_item_cache o c2 with
               | Some ic => lo_set_item_cache o
                              (Some (backfill (now env) (lo_id o) (lo_iter o items) ic)) c2
               | None => c2
               end, r)
          | (Err e, c1, r) => (Err e, c1, r)
          end
      end
  end.
Proof.
  unfold list_all. cbv [mbind M_bind mret M_ret read_client ask_now modify_client].
  destruct (lo_list_cache o c) as [cache |]; [| by destruct (list_fetch_raw o env c) as [[[] ?] ?]].
  destruct (cache_get (now env) tt cache); [done |].
  destruct (list_fetch_raw o env c) as [[[items | e] c1] r]; [| done].
  destruct (lo_item_cache o _); cbn; by rewrite ?app_nil_r.
Qed.

Lemma item_fetch_raw_eq (o : ItemOps K V) k env c :
  item_fetch_raw o k env c =
  match url_join (base c) (io_endpoint o k) with
  | Err e => (Err (UrlParse e), c, [])
  | Ok url => (io_answer o (net env) k, c, [url])
  end.
Proof. reflexivity. Qed.

Lemma get_by_id_eq (o : ItemOps K V) k env c :
  get_by_id o k env c =
  match io_cache o c with
  | None => item_fetch_raw o k env c
  | Some cache =>
      match cache_get (now env) k cache with
      | Some cached => (Ok cached, c, [])
      | None =>
          match item_fetch_raw o k env c with
          | (Ok v, c1, r) =>
              (Ok v, io_set_cache o (Some (cache_insert (now env) k v cache)) c1, r)
          | (Err e, c1, r) => (Err e, c1, r)
          end
      end
  end.
Proof.
  unfold get_by_id. cbv [mbind M_bind mret M_ret read_client ask_now modify_client].
  destruct (io_cache o c) as [cache |]; [| by destruct (item_fetch_raw o k env c) as [[[] ?] ?]].
  destruct (cache_get (now env) k cache); [done |].
  destruct (item_fetch_raw o k env c) as [[[v | e] c1] r]; [| done].
  cbn. by rewrite ?app_nil_r.
Qed.
End Running.

Create HintDb lawful.

Ltac solve_lawful := constructor; intros; reflexivity.

Lemma session_list_ops_lawful : list_ops_lawful session_list_ops.
Proof. solve_lawful. Qed.
Lemma web_session_list_ops_lawful : list_ops_lawful web_session_list_ops.
Proof. solve_lawful. Qed.
Lemma film_list_ops_lawful : list_ops_lawful film_list_ops.
Proof. solve_lawful. Qed.
Lemma film_package_list_ops_lawful : list_ops_lawful film_package_list_ops.
Proof. solve_lawful. Qed.
Lemma screen_list_ops_lawful : list_ops_lawful screen_list_ops.
Proof. solve_lawful. Qed.
Lemma attribute_list_ops_lawful : list_ops_lawful attribute_list_ops.
Proof. solve_lawful. Qed.

Lemma session_item_ops_lawful : item_ops_lawful session_item_ops.
Proof. solve_lawful. Qed.
Lemma film_item_ops_lawful : item_ops_lawful film_item_ops.
Proof. solve_lawful. Qed.
Lemma film_package_item_ops_lawful : item_ops_lawful film_package_item_ops.
Proof. solve_lawful. Qed.
Lemma screen_item_ops_lawful : item_ops_lawful screen_item_ops.
Proof. solve_lawful. Qed.
Lemma attribute_item_ops_lawful : item_ops_lawful attribute_item_ops.
Proof. solve_lawful. Qed.
Lemma site_item_ops_lawful : item_ops_lawful site_item_ops.
Proof. solve_lawful. Qed.

#[local] Hint Resolve session_list_ops_lawful web_session_list_ops_lawful film_list_ops_lawful
  film_package_list_ops_lawful screen_list_ops_lawful attribute_list_ops_lawful
  session_item_ops_lawful film_item_ops_lawful film_package_item_ops_lawful
  screen_item_ops_lawful attribute_item_ops_lawful site_item_ops_lawful : lawful.

Lemma share_session : ops_share_item_cache session_list_ops session_item_ops.
Proof. split; reflexivity. Qed.
Lemma share_web_session : ops_share_item_cache web_session_list_ops session_item_ops.
Proof. split; reflexivity. Qed.
Lemma share_film : ops_share_item_cache film_list_ops film_item_ops.
Proof. split; reflexivity. Qed.
Lemma share_film_package : ops_share_item_cache film_package_list_ops film_package_item_ops.
Proof. split; reflexivity. Qed.
Lemma share_screen : ops_share_item_cache screen_list_ops screen_item_ops.
Proof. split; reflexivity. Qed.
Lemma share_attribute : ops_share_item_cache attribute_list_ops attribute_item_ops.
Proof. split; reflexivity. Qed.

Section Generic.
Context {K : Type} `{Countable K} {V L : Type}.

Lemma list_fetch_raw_client (o : ListOps K V L) env c r c1 q :
  list_fetch_raw o env c = (r, c1, q) -> c1 = c.
Proof.
  rewrite list_fetch_raw_eq. destruct (url_join _ _); intros E; by injection E.
Qed.

Lemma item_fetch_raw_client (o : ItemOps K V) k env c r c1 q :
  item_fetch_raw o k env c = (r, c1, q) -> c1 = c.
Proof.
  rewrite item_fetch_raw_eq. destruct (url_join _ _); intros E; by injection E.
Qed.

(** The state after a successful list-cache miss. *)
Lemma list_all_miss (o : ListOps K V L) env c lc l c' reqs :
  lo_list_cache o c = Some lc ->
  cache_get (now env) tt lc = None ->
  list_all o env c = (Ok l, c', reqs) ->
  list_fetch_raw o env c = (Ok l, c, reqs) /\
  let c2 := lo_set_list_cache o (Some (cache_insert (now env) tt l lc)) c in
  c' = match lo_item_cache o c2 with
       | Some ic => lo_set_item_cache o (Some (backfill (now env) (lo_id o) (lo_iter o l) ic)) c2
       | None => c2
       end.
Proof.
  intros Hlc Hmiss. rewrite list_all_eq, Hlc, Hmiss.
  destruct (list_fetch_raw o env c) as [[[items | e] c1] r] eqn:E; [| discriminate].
  apply list_fetch_raw_client in E as Ec. subst c1.
  intros Heq. injection Heq as <- <- <-. split; [done | reflexivity].
Qed.
End Generic.

Section GenericContracts.
Context {K : Type} `{Countable K} {V L : Type}.


Lemma get_batch_all_hit (io : ItemOps K V) ic ks env c :
  io_cache io c = Some ic ->
  (forall k, In k ks -> exists y, cache_get (now env) k ic = Some y) ->
  exists vs, get_batch io ks env c = (Ok vs, c, []).
Proof.
  intros Hic. induction ks as [| k ks IH]; intros Hall.
  - by exists [].
  - destruct (Hall k (or_introl eq_refl)) as [y Hy].
    destruct IH as [vs Hvs]; [intros k' Hk'; apply Hall; by right |].
    exists (y :: vs). cbn. cbv [mbind M_bind mret M_ret].
    rewrite get_by_id_eq, Hic, Hy, Hvs. reflexivity.
Qed.

Lemma list_then_get_ok (o : ListOps K V L) (io : ItemOps K V) :
  list_ops_lawful o -> ops_share_item_cache o io -> list_then_get_contract o io.
Proof.
  intros Hl [Hget Hset] env c lc ic l c' reqs Hlc Hic Hmiss Hrun Hcap.
  destruct (list_all_miss o env c lc l c' reqs Hlc Hmiss Hrun) as [Hf Hc'].
  cbn zeta in Hc'. rewrite (ll_item_set_list o Hl), Hic in Hc'. subst c'.
  split.
  - rewrite list_fetch_raw_eq in Hf.
    destruct (url_join _ _); [| discriminate]. by injection Hf as _ <-.
  - intros env' Hlive.
    apply (get_batch_all_hit io (backfill (now env) (lo_id o) (lo_iter o l) ic)).
    + by rewrite Hget, (ll_item_set o Hl).
    + intros k Hk. apply in_map_iff in Hk as [x [<- Hx]].
      destruct (backfill_present (now env) (lo_id o) (lo_iter o l) ic x Hx) as [y Hy].
      exists y. unfold cache_get. rewrite Hy, backfill_time_to_live.
      by rewrite (proj2 (Z.ltb_lt _ _) Hlive).
Qed.
End GenericContracts.

Section GenericContracts2.
Context {K : Type} `{Countable K} {V L : Type}.

Lemma cache_get_live (c : Cache K V) k v t now :
  entries c !! k = Some (v, t) -> now < t + time_to_live c -> cache_get now k c = Some v.
Proof.
  intros Hk Hlt. unfold cache_get. rewrite Hk. by rewrite (proj2 (Z.ltb_lt _ _) Hlt).
Qed.

Lemma cache_get_some (c : Cache K V) k v now :
  cache_get now k c = Some v ->
  exists t, entries c !! k = Some (v, t) /\ now < t + time_to_live c.
Proof.
  unfold cache_get. destruct (entries c !! k) as [[v' t] |]; [| discriminate].
  destruct (now <? t + time_to_live c) eqn:E; [| discriminate].
  intros Hv; injection Hv as <-. exists t. split; [done | by apply Z.ltb_lt].
Qed.

Lemma get_by_id_ok (io : ItemOps K V) :
  item_ops_lawful io -> get_by_id_contract io.
Proof.
  intros Hl env c k. split; [| split; [| split]].
  - intros Hnone. by rewrite get_by_id_eq, Hnone.
  - intros ic v Hic Hhit. by rewrite get_by_id_eq, Hic, Hhit.
  - intros ic Hic Hmiss. by rewrite get_by_id_eq, Hic, Hmiss.
  - intros ic v c' r Hic Hrun. rewrite get_by_id_eq, Hic in Hrun.
    destruct (cache_get (now env) k ic) as [cached |] eqn:Hget.
    + injection Hrun as -> <- <-.
      destruct (cache_get_some ic k v (now env) Hget) as [t [Ht _]].
      exists ic, t. split; [done | split; [done |]].
      intros env' Hlive. rewrite get_by_id_eq, Hic.
      by rewrite (cache_get_live ic k v t (now env') Ht Hlive).
    + destruct (item_fetch_raw io k env c) as [[[v' | e] c1] r'] eqn:Hf; [| discriminate].
      apply item_fetch_raw_client in Hf. subst c1.
      injection Hrun as -> <- <-.
      exists (cache_insert (now env) k v ic), (now env).
      split; [by rewrite (il_set io Hl) | split; [apply cache_insert_lookup_eq |]].
      intros env' Hlive. rewrite get_by_id_eq, (il_set io Hl).
      by rewrite (cache_get_live _ k v (now env) (now env') (cache_insert_lookup_eq _ _ _ _) Hlive).
Qed.

Lemma invalidate_ok (o : ListOps K V L) (io : ItemOps K V) :
  list_ops_lawful o -> ops_share_item_cache o io -> invalidate_contract o io.
Proof.
  intros Hl [Hget Hset] c k ic lc Hic Hlc. cbn zeta.
  set (c1 := lo_set_item_cache o (Some (cache_invalidate k ic)) c).
  assert (Hc' : invalidate_cached o k c =
                lo_set_list_cache o (Some (cache_invalidate_all lc)) c1).
  { unfold invalidate_cached. rewrite Hic. fold c1.
    unfold c1. by rewrite (ll_list_set_item o Hl), Hlc. }
  rewrite Hc'.
  assert (Hitem : lo_item_cache o (lo_set_list_cache o (Some (cache_invalidate_all lc)) c1)
                  = Some (cache_invalidate k ic))
    by (unfold c1; by rewrite (ll_item_set_list o Hl), (ll_item_set o Hl)).
  assert (Hlist : lo_list_cache o (lo_set_list_cache o (Some (cache_invalidate_all lc)) c1)
                  = Some (cache_invalidate_all lc)) by apply (ll_list_set o Hl).
  split; [| split].
  - do 2 eexists. split; [exact Hitem | split; [exact Hlist | split; reflexivity]].
  - intros env. rewrite get_by_id_eq, Hget, Hitem.
    replace (cache_get (now env) k (cache_invalidate k ic)) with (@None V)
      by (unfold cache_get; cbn; by rewrite lookup_delete_eq).
    destruct (item_fetch_raw io k env _) as [[[v | e] c2] r]; cbn; by split.
  - intros env. rewrite list_all_eq, Hlist.
    replace (cache_get (now env) tt (cache_invalidate_all lc)) with (@None L)
      by (unfold cache_get; cbn; by rewrite lookup_empty).
    destruct (list_fetch_raw o env _) as [[[v | e] c2] r]; cbn; by split.
Qed.

Lemma list_fetch_raw_err (o : ListOps K V L) env c e c' reqs :
  list_fetch_raw o env c = (Err e, c', reqs) ->
  c' = c /\
  ((exists pe, url_join (base c) (lo_endpoint o) = Err pe /\ e = UrlParse pe /\ reqs = []) \/
   (exists u, url_join (base c) (lo_endpoint o) = Ok u /\ lo_answer o (net env) = Err e /\
              reqs = [u])).
Proof.
  rewrite list_fetch_raw_eq. destruct (url_join _ _) as [u | pe].
  - destruct (lo_answer o (net env)) as [v | e'] eqn:Ha; [discriminate |].
    intros Hr; injection Hr as <- <- <-. split; [done |]. right. by exists u.
  - intros Hr; injection Hr as <- <- <-. split; [done |]. left. by exists pe.
Qed.

Lemma list_failure_ok (o : ListOps K V L) : list_failure_clean o.
Proof.
  intros env c e c' reqs Hrun. rewrite list_all_eq in Hrun.
  destruct (lo_list_cache o c) as [cache |]; [| by apply list_fetch_raw_err].
  destruct (cache_get (now env) tt cache); [discriminate |].
  destruct (list_fetch_raw o env c) as [[[items | e'] c1] r] eqn:Hf; [discriminate |].
  injection Hrun as -> -> ->. by apply list_fetch_raw_err.
Qed.

Lemma item_fetch_raw_err (io : ItemOps K V) k env c e c' reqs :
  item_fetch_raw io k env c = (Err e, c', reqs) ->
  c' = c /\
  ((exists pe, url_join (base c) (io_endpoint io k) = Err pe /\ e = UrlParse pe /\ reqs = []) \/
   (exists u, url_join (base c) (io_endpoint io k) = Ok u /\ io_answer io (net env) k = Err e /\
              reqs = [u])).
Proof.
  rewrite item_fetch_raw_eq. destruct (url_join _ _) as [u | pe].
  - intros Hr; injection Hr as Ha <- <-. split; [done |]. right. by exists u.
  - intros Hr; injection Hr as <- <- <-. split; [done |]. left. by exists pe.
Qed.

Lemma item_failure_ok (io : ItemOps K V) : item_failure_clean io.
Proof.
  intros env c k e c' reqs Hrun. rewrite get_by_id_eq in Hrun.
  destruct (io_cache io c) as [cache |]; [| by apply item_fetch_raw_err].
  destruct (cache_get (now env) k cache); [discriminate |].
  destruct (item_fetch_raw io k env c) as [[[v | e'] c1] r] eqn:Hf; [discriminate |].
  injection Hrun as -> -> ->. by apply item_fetch_raw_err.
Qed.
End GenericContracts2.

(* ------------------------------------------------------------------ *)
(** ** The claims *)



(** C3: for sessions, films, film packages, screens, attributes and the
    site: with no item cache, "get by id" is the fetch alone; a hit answers
    the cached value and changes nothing; a miss fetches and, on success,
    inserts the value under the requested id; after a successful get, the
    entry holds the returned value and a second get at any instant within
    its time-to-live answers the same value with no Transport call and no
    change. *)
Theorem C3_get_by_id_contract :
  get_by_id_contract session_item_ops /\
  get_by_id_contract film_item_ops /\
  get_by_id_contract film_package_item_ops /\
  get_by_id_contract screen_item_ops /\
  get_by_id_contract attribute_item_ops /\
  get_by_id_contract site_item_ops.
Proof. repeat apply conj; apply get_by_id_ok; auto with lawful. Qed.

(** C4: for sessions, films, film packages, screens and attributes with
    caching configured, invalidating an id removes it from the item cache
    and empties the list cache whatever it held; the next get of that id
    and the next list then answer what the Transport fetch answers, with
    its request. *)
Theorem C4_invalidate_by_id :
  invalidate_contract session_list_ops session_item_ops /\
  invalidate_contract film_list_ops film_item_ops /\
  invalidate_contract film_package_list_ops film_package_item_ops /\
  invalidate_contract screen_list_ops screen_item_ops /\
  invalidate_contract attribute_list_ops attribute_item_ops.
Proof.
  repeat apply conj; apply invalidate_ok; auto with lawful;
    first [apply share_session | apply share_film | apply share_film_package
          | apply share_screen | apply share_attribute].
Qed.

(** C5: every list and get operation that fails leaves the client (all
    its caches) exactly as it was, and its error is the URL-join error
    (with no request) or the error of the one request it made. *)
Theorem C5_failure_leaves_caches :
  list_failure_clean session_list_ops /\ list_failure_clean web_session_list_ops /\
  list_failure_clean film_list_ops /\ list_failure_clean film_package_list_ops /\
  list_failure_clean screen_list_ops /\ list_failure_clean attribute_list_ops /\
  item_failure_clean session_item_ops /\ item_failure_clean film_item_ops /\
  item_failure_clean film_package_item_ops /\ item_failure_clean screen_item_ops /\
  item_failure_clean attribute_item_ops /\ item_failure_clean site_item_ops.
Proof. repeat apply conj; first [apply list_failure_ok | apply item_failure_ok]. Qed.


(** C7 (code bug): "list films with sessions in date range
    [2024-01-01, 2024-01-31]" should return the film of a session at
    10:00 on 2024-01-31. The end date is turned into its midnight, so the
    session is filtered out and no film is returned. Days 19723 and 19753
    are 2024-01-01 and 2024-01-31. *)
Lemma C7_date_range_drops_end_day :
  let s := sample_session 1 "F9" (19753 * 86400 + 36000) 5 in
  let env := MkEnv 0 (sample_net [s] [] []) in
  midnight 19753 <= Session.pre_show_start_time s < midnight 19754 /\
  Session.film_id s = MkFilmId "F9" /\
  fst (fst (list_films_with_sessions_in_date_range 19723 19753 env (sample_client 1000 500)))
  = Ok [].
Proof. vm_compute. split; [split; [discriminate | reflexivity] | split; reflexivity]. Qed.

(** C8: a session is open for sales exactly when its status is [Open],
    the current instant is before its sales cut-off and a seat is
    available; one hour before the cut-off, an open session with 5 seats is
    open for sales and the same session with 0 seats is not. *)
Theorem C8_is_open_for_sales_iff :
  (forall now s, Session.is_open_for_sales now s = true <->
     Session.status s = SessionStatus.Open /\ now < Session.sales_cut_off_time s /\
     (0 < Session.seats_available s)%N) /\
  Session.is_open_for_sales (Session.sales_cut_off_time (sample_session 1 "F1" 100 5) - 3600)
    (sample_session 1 "F1" 100 5) = true /\
  Session.is_open_for_sales (Session.sales_cut_off_time (sample_session 1 "F1" 100 0) - 3600)
    (sample_session 1 "F1" 100 0) = false.
Proof.
  split; [| split; reflexivity].
  intros now s. unfold Session.is_open_for_sales.
  rewrite !andb_true_iff, bool_decide_eq_true, Z.ltb_lt, N.ltb_lt. tauto.
Qed.

(** ** Invalidation as field updates *)

Ltac unfold_setters :=
  cbv [set_session_cache set_session_list_cache set_web_session_list_cache
       set_film_cache set_film_list_cache set_film_package_cache
       set_film_package_list_cache set_screen_cache set_screen_list_cache
       set_attribute_cache set_attribute_list_cache set_site_cache]; cbn.

Ltac invalidation_cases :=
  intros [];
  cbv [invalidate_cached_session invalidate_all_cached_sessions
       invalidate_all_cached_web_sessions invalidate_cached_film
       invalidate_all_cached_films invalidate_cached_film_package
       invalidate_all_cached_film_packages invalidate_cached_screen
       invalidate_all_cached_screens invalidate_cached_attribute
       invalidate_all_cached_attributes invalidate_cached_site
       invalidate_cached invalidate_all_cached];
  repeat (unfold_setters;
          match goal with
          | |- context [match ?x with Some _ => _ | None => _ end] => is_var x; destruct x
          end);
  unfold_setters; reflexivity.

Lemma cache_invalidate_all_idem {K} `{Countable K} {V} (lc : Cache K V) :
  cache_invalidate_all (cache_invalidate_all lc) = cache_invalidate_all lc.
Proof. reflexivity. Qed.

Lemma option_invalidate_all_idem {K} `{Countable K} {V} (o : option (Cache K V)) :
  option_map cache_invalidate_all (option_map cache_invalidate_all o) =
  option_map cache_invalidate_all o.
Proof. by destruct o. Qed.

Lemma cache_empty_invalidate_all {K} `{Countable K} {V} (o : option (Cache K V)) :
  cache_empty (option_map cache_invalidate_all o).
Proof. by destruct o. Qed.

Lemma invalidate_all_cached_sessions_eq c :
  invalidate_all_cached_sessions c =
  set_session_list_cache (option_map cache_invalidate_all (session_list_cache c))
    (set_session_cache (option_map cache_invalidate_all (session_cache c)) c).
Proof. revert c. invalidation_cases. Qed.

Lemma invalidate_all_cached_web_sessions_eq c :
  invalidate_all_cached_web_sessions c =
  set_web_session_list_cache (option_map cache_invalidate_all (web_session_list_cache c)) c.
Proof. revert c. invalidation_cases. Qed.

Lemma invalidate_all_cached_films_eq c :
  invalidate_all_cached_films c =
  set_film_list_cache (option_map cache_invalidate_all (film_list_cache c))
    (set_film_cache (option_map cache_invalidate_all (film_cache c)) c).
Proof. revert c. invalidation_cases. Qed.

Lemma invalidate_all_cached_film_packages_eq c :
  invalidate_all_cached_film_packages c =
  set_film_package_list_cache (option_map cache_invalidate_all (film_package_list_cache c))
    (set_film_package_cache (option_map cache_invalidate_all (film_package_cache c)) c).
Proof. revert c. invalidation_cases. Qed.

Lemma invalidate_all_cached_screens_eq c :
  invalidate_all_cached_screens c =
  set_screen_list_cache (option_map cache_invalidate_all (screen_list_cache c))
    (set_screen_cache (option_map cache_invalidate_all (screen_cache c)) c).
Proof. revert c. invalidation_cases. Qed.

Lemma invalidate_all_cached_attributes_eq c :
  invalidate_all_cached_attributes c =
  set_attribute_list_cache (option_map cache_invalidate_all (attribute_list_cache c))
    (set_attribute_cache (option_map cache_invalidate_all (attribute_cache c)) c).
Proof. revert c. invalidation_cases. Qed.

Lemma invalidate_cached_site_eq c :
  invalidate_cached_site c =
  set_site_cache (option_map cache_invalidate_all (site_cache c)) c.
Proof. revert c. invalidation_cases. Qed.

Lemma invalidate_all_caches_eq c :
  invalidate_all_caches c =
  MkClient (base c) (token c)
    (option_map cache_invalidate_all (session_cache c))
    (option_map cache_invalidate_all (session_list_cache c))
    (option_map cache_invalidate_all (web_session_list_cache c))
    (option_map cache_invalidate_all (film_cache c))
    (option_map cache_invalidate_all (film_list_cache c))
    (option_map cache_invalidate_all (film_package_cache c))
    (option_map cache_invalidate_all (film_package_list_cache c))
    (option_map cache_invalidate_all (screen_cache c))
    (option_map cache_invalidate_all (screen_list_cache c))
    (option_map cache_invalidate_all (attribute_cache c))
    (option_map cache_invalidate_all (attribute_list_cache c))
    (option_map cache_invalidate_all (site_cache c)).
Proof.
  unfold invalidate_all_caches.
  rewrite invalidate_cached_site_eq, invalidate_all_cached_attributes_eq,
    invalidate_all_cached_screens_eq, invalidate_all_cached_film_packages_eq,
    invalidate_all_cached_films_eq, invalidate_all_cached_web_sessions_eq,
    invalidate_all_cached_sessions_eq.
  by destruct c.
Qed.

Lemma set_client_fields c :
  MkClient (base c) (token c) (session_cache c) (session_list_cache c)
    (web_session_list_cache c) (film_cache c) (film_list_cache c) (film_package_cache c)
    (film_package_list_cache c) (screen_cache c) (screen_list_cache c) (attribute_cache c)
    (attribute_list_cache c) (site_cache c) = c.
Proof. by destruct c. Qed.

Ltac idem_by_eq lem :=
  intros c; rewrite !lem; destruct c; cbn; rewrite ?option_invalidate_all_idem; reflexivity.

(** C9: invalidating everything twice is the same as invalidating it once,
    and after it every cache is absent or empty; the same idempotence
    holds for each per-type invalidate-all. The operations return nothing,
    so there is no error to report. *)
Theorem C9_invalidate_all_idempotent :
  (forall c, invalidate_all_caches (invalidate_all_caches c) = invalidate_all_caches c) /\
  (forall c, caches_empty (invalidate_all_caches c)) /\
  (forall c, invalidate_all_cached_sessions (invalidate_all_cached_sessions c) =
             invalidate_all_cached_sessions c) /\
  (forall c, invalidate_all_cached_web_sessions (invalidate_all_cached_web_sessions c) =
             invalidate_all_cached_web_sessions c) /\
  (forall c, invalidate_all_cached_films (invalidate_all_cached_films c) =
             invalidate_all_cached_films c) /\
  (forall c, invalidate_all_cached_film_packages (invalidate_all_cached_film_packages c) =
             invalidate_all_cached_film_packages c) /\
  (forall c, invalidate_all_cached_screens (invalidate_all_cached_screens c) =
             invalidate_all_cached_screens c) /\
  (forall c, invalidate_all_cached_attributes (invalidate_all_cached_attributes c) =
             invalidate_all_cached_attributes c) /\
  (forall c, invalidate_cached_site (invalidate_cached_site c) = invalidate_cached_site c).
Proof.
  split; [idem_by_eq invalidate_all_caches_eq |].
  split.
  { intros c. rewrite invalidate_all_caches_eq. unfold caches_empty. cbn.
    repeat split; apply cache_empty_invalidate_all. }
  split; [idem_by_eq invalidate_all_cached_sessions_eq |].
  split; [idem_by_eq invalidate_all_cached_web_sessions_eq |].
  split; [idem_by_eq invalidate_all_cached_films_eq |].
  split; [idem_by_eq invalidate_all_cached_film_packages_eq |].
  split; [idem_by_eq invalidate_all_cached_screens_eq |].
  split; [idem_by_eq invalidate_all_cached_attributes_eq |].
  idem_by_eq invalidate_cached_site_eq.
Qed.

Lemma invalidate_cached_session_eq id c :
  invalidate_cached_session id c =
  set_session_list_cache (option_map cache_invalidate_all (session_list_cache c))
    (set_session_cache (option_map (cache_invalidate id) (session_cache c)) c).
Proof. revert c. invalidation_cases. Qed.

(** C10: session invalidation, by id or all at once, touches neither the
    web session list cache nor the caches of the other entity types; of
    all invalidation methods only [invalidate_all_cached_web_sessions] and
    [invalidate_all_caches] clear the web session list cache. So a web
    session list that is still live is served from the cache after a
    session is invalidated by id: in the sample run the served list still
    holds session 7, which has left the session cache, and no request is
    made. *)
Theorem C10_session_invalidation_frame :
  (forall id c,
     web_session_list_cache (invalidate_cached_session id c) = web_session_list_cache c /\
     non_session_caches (invalidate_cached_session id c) = non_session_caches c) /\
  (forall c,
     web_session_list_cache (invalidate_all_cached_sessions c) = web_session_list_cache c /\
     non_session_caches (invalidate_all_cached_sessions c) = non_session_caches c) /\
  (forall i c, i <> InvalidateAllCaches -> i <> InvalidateAllCachedWebSessions ->
     web_session_list_cache (run_invalidation i c) = web_session_list_cache c) /\
  (forall c,
     web_session_list_cache (invalidate_all_caches c) =
       option_map cache_invalidate_all (web_session_list_cache c) /\
     web_session_list_cache (invalidate_all_cached_web_sessions c) =
       option_map cache_invalidate_all (web_session_list_cache c)) /\
  (forall env c id lc l,
     web_session_list_cache c = Some lc -> cache_get (now env) tt lc = Some l ->
     list_web_sessions env (invalidate_cached_session id c) =
       (Ok l, invalidate_cached_session id c, [])) /\
  (let '(_, c1, _) := list_web_sessions sample_env (sample_client 100 500) in
   let c2 := invalidate_cached_session (MkSessionId 7) c1 in
   let '(r, c3, reqs) := list_web_sessions sample_env c2 in
   match r, session_cache c2 with
   | Ok l, Some ic =>
       In (MkSessionId 7) (map Session.id (SessionList_iter l)) /\
       entries ic !! MkSessionId 7 = None /\ c3 = c2 /\ reqs = []
   | _, _ => False
   end).
Proof.
  assert (Hweb : forall id c,
    web_session_list_cache (invalidate_cached_session id c) = web_session_list_cache c).
  { intros id c. by rewrite invalidate_cached_session_eq. }
  split.
  { intros id c. by rewrite invalidate_cached_session_eq. }
  split.
  { intros c. by rewrite invalidate_all_cached_sessions_eq. }
  split.
  { intros i c Hall Hwebi.
    destruct i; try congruence; cbn [run_invalidation]; revert c; invalidation_cases. }
  split.
  { intros c. rewrite invalidate_all_caches_eq, invalidate_all_cached_web_sessions_eq.
    split; reflexivity. }
  split.
  { intros env c id lc l Hlc Hget.
    unfold list_web_sessions. rewrite list_all_eq.
    cbn [lo_list_cache web_session_list_ops]. rewrite Hweb, Hlc, Hget. reflexivity. }
  vm_compute. split; [left; reflexivity | repeat split].
Qed.

(* ------------------------------------------------------------------ *)
(** ** Further properties of the code *)

Lemma bind_ext {A B} (m : M A) (k1 k2 : A -> M B) env c :
  (forall a env' c', k1 a env' c' = k2 a env' c') ->
  (x ← m; k1 x) env c = (x ← m; k2 x) env c.
Proof.
  intros Hk. cbv [mbind M_bind].
  destruct (m env c) as [[[a | e] c1] r1]; [| done]. by rewrite Hk.
Qed.

Section Batch.
Context {K : Type} `{Countable K} {V : Type}.

Lemma get_batch_app (io : ItemOps K V) xs ys env c :
  get_batch io (xs ++ ys) env c =
  (vs ← get_batch io xs; ws ← get_batch io ys; mret (vs ++ ws)) env c.
Proof.
  revert c. induction xs as [| x xs IH]; intros c; cbn [app get_batch].
  - cbv [mbind M_bind mret M_ret]. destruct (get_batch io ys env c) as [[[ws | e] c2] r2]; cbn;
      by rewrite ?app_nil_r.
  - cbv [mbind M_bind mret M_ret] in *. destruct (get_by_id io x env c) as [[[v | e] c1] r1]; [| done].
    rewrite IH.
    destruct (get_batch io xs env c1) as [[[vs | e] c2] r2]; [| by rewrite ?app_assoc].
    destruct (get_batch io ys env c2) as [[[ws | e] c3] r3]; cbn; by rewrite ?app_nil_r, ?app_assoc.
Qed.
End Batch.

Lemma first_seen_spec {A} `{EqDecision A} (seen l : list A) :
  NoDup (first_seen seen l) /\
  (forall x, x ∈ first_seen seen l <-> x ∈ l /\ x ∉ seen).
Proof.
  revert seen. induction l as [| y l IH]; intros seen; cbn [first_seen].
  - split; [constructor |]. intros x. split; [intros Hx; by apply elem_of_nil in Hx | intros [Hx _]; by apply elem_of_nil in Hx].
  - case_bool_decide as Hy.
    + destruct (IH seen) as [Hnd Hin]. split; [done |].
      intros x. rewrite Hin, elem_of_cons. split; [tauto |].
      intros [[-> | Hx] Hn]; [done | tauto].
    + destruct (IH (seen ++ [y])) as [Hnd Hin]. split.
      * constructor; [| done]. rewrite Hin, elem_of_app, list_elem_of_singleton. tauto.
      * intros x. rewrite !elem_of_cons, Hin, elem_of_app, list_elem_of_singleton.
        split; [intros [-> | [Hx Hn]]; tauto |].
        intros [[-> | Hx] Hn]; [by left |].
        destruct (decide (x = y)); [by left | right; tauto].
Qed.

Lemma films_go_batch seen l env c :
  films_go seen l env c =
  get_films_batch (first_seen seen (map Session.film_id l)) env c.
Proof.
  revert seen c. induction l as [| s l IH]; intros seen c; cbn [films_go map first_seen].
  - reflexivity.
  - case_bool_decide; [apply IH |].
    unfold get_films_batch. cbn [get_batch]. unfold get_film.
    cbv [mbind M_bind mret M_ret] in *.
    destruct (get_by_id film_item_ops (Session.film_id s) env c) as [[[v | e] c1] r1]; [| done].
    rewrite IH. reflexivity.
Qed.

Lemma screens_go_batch seen l env c :
  screens_go seen l env c =
  get_batch screen_item_ops (first_seen seen (map Session.screen_id l)) env c.
Proof.
  revert seen c. induction l as [| s l IH]; intros seen c; cbn [screens_go map first_seen].
  - reflexivity.
  - case_bool_decide; [apply IH |].
    cbn [get_batch]. unfold get_screen.
    cbv [mbind M_bind mret M_ret] in *.
    destruct (get_by_id screen_item_ops (Session.screen_id s) env c) as [[[v | e] c1] r1]; [| done].
    rewrite IH. reflexivity.
Qed.

Lemma first_seen_ext {A} `{EqDecision A} (s1 s2 l : list A) :
  (forall x, x ∈ s1 <-> x ∈ s2) -> first_seen s1 l = first_seen s2 l.
Proof.
  revert s1 s2. induction l as [| y l IH]; intros s1 s2 Hs; cbn [first_seen]; [done |].
  rewrite (bool_decide_ext (y ∈ s1) (y ∈ s2) (Hs y)).
  case_bool_decide; [by apply IH |]. f_equal. apply IH.
  intros x. rewrite !elem_of_app. by rewrite Hs.
Qed.

Lemma first_seen_app {A} `{EqDecision A} (seen l1 l2 : list A) :
  first_seen seen (l1 ++ l2) = first_seen seen l1 ++ first_seen (seen ++ l1) l2.
Proof.
  revert seen. induction l1 as [| x l1 IH]; intros seen; cbn [first_seen app].
  - by rewrite app_nil_r.
  - case_bool_decide as Hx.
    + rewrite IH. f_equal. apply first_seen_ext. intros y. rewrite !elem_of_app, elem_of_cons.
      split; [tauto |]. intros [? | [-> | ?]]; tauto.
    + rewrite IH, <- app_assoc. reflexivity.
Qed.

Lemma push_map (ks : list NaiveDate) (F : NaiveDate -> list Session.t) d s :
  NoDup ks ->
  group_push (map (fun d' => (d', F d')) ks) d s =
  if bool_decide (d ∈ ks) then map (fun d' => (d', if bool_decide (d' = d) then F d' ++ [s] else F d')) ks
  else map (fun d' => (d', F d')) ks ++ [(d, [s])].
Proof.
  induction ks as [| k ks IH]; intros Hnd; cbn [map group_push].
  - rewrite bool_decide_false by (intros Hin; by apply elem_of_nil in Hin). reflexivity.
  - apply NoDup_cons in Hnd as [Hk Hnd].
    destruct (decide (k = d)) as [Hkd | Hkd].
    + subst k. rewrite (bool_decide_true (d ∈ d :: ks)) by (apply elem_of_cons; by left).
      rewrite (bool_decide_true (d = d)) by done. f_equal.
      apply map_ext_in. intros d' Hd'. apply list_elem_of_In in Hd'.
      rewrite bool_decide_false; [done |]. intros ->. done.
    + rewrite IH by done. rewrite (bool_decide_false (k = d)) by done.
      rewrite (bool_decide_ext (d ∈ k :: ks) (d ∈ ks)).
      * by destruct (bool_decide (d ∈ ks)).
      * rewrite elem_of_cons. split; [intros [-> | ?]; [done | done] | by right].
Qed.

Lemma filter_date_none (p : list Session.t) d :
  d ∉ map session_date p -> filter (fun s => session_date s = d) p = [].
Proof.
  induction p as [| s p IH]; intros Hd; [done |].
  rewrite filter_cons. cbn [map] in Hd. rewrite elem_of_cons in Hd.
  rewrite decide_False by (intros <-; apply Hd; by left). apply IH. intros ?; apply Hd; by right.
Qed.

Lemma group_loop_canon (p : list Session.t) :
  fold_left (fun grouped session =>
     group_push grouped (date (Session.pre_show_start_time session)) session) p [] = canon p.
Proof.
  induction p as [| s p IH] using rev_ind; [done |].
  rewrite fold_left_app. cbn [fold_left]. rewrite IH. unfold canon.
  fold (session_date s).
  rewrite map_app, first_seen_app. cbn [first_seen app map].
  destruct (first_seen_spec [] (map session_date p)) as [Hnd Hin].
  rewrite push_map by done.
  rewrite (bool_decide_ext (session_date s ∈ first_seen [] (map session_date p))
             (session_date s ∈ map session_date p)).
  2:{ rewrite Hin. split; [tauto |]. intros H; split; [done | intros Hn; by apply elem_of_nil in Hn]. }
  case_bool_decide as Hs.
  - rewrite ?app_nil_r. apply map_ext. intros d'. f_equal.
    rewrite filter_app, filter_cons, filter_nil.
    case_bool_decide as Hd; [by rewrite decide_True | by rewrite decide_False, app_nil_r].
  - rewrite map_app. cbn [map]. f_equal.
    + apply map_ext_in. intros d' Hd'. apply list_elem_of_In, Hin in Hd' as [Hd' _].
      f_equal. rewrite filter_app, filter_cons, filter_nil, decide_False, app_nil_r; [done |].
      intros Heq. apply Hs. by rewrite Heq.
    + f_equal. f_equal. rewrite filter_app, filter_cons, filter_nil, decide_True by done.
      rewrite filter_date_none; [done |]. done.
Qed.

Lemma elem_of_map {A B} (f : A -> B) (l : list A) y :
  y ∈ map f l <-> exists x, y = f x /\ x ∈ l.
Proof.
  rewrite list_elem_of_In, in_map_iff. split.
  - intros (x & <- & Hx). exists x. split; [done |]. by apply list_elem_of_In.
  - intros (x & -> & Hx). exists x. split; [done |]. by apply list_elem_of_In.
Qed.

Lemma insert_by_date_perm g l : insert_by_date g l ≡ₚ g :: l.
Proof.
  induction l as [| h t IH]; cbn [insert_by_date]; [done |].
  destruct (fst h <=? fst g); [| done].
  rewrite IH. apply perm_swap.
Qed.

Lemma sort_by_date_go_perm l acc :
  fold_left (fun acc g => insert_by_date g acc) l acc ≡ₚ l ++ acc.
Proof.
  revert acc. induction l as [| g l IH]; intros acc; cbn [fold_left app]; [done |].
  rewrite IH, insert_by_date_perm. symmetry. apply Permutation_middle.
Qed.

Lemma insert_by_date_sorted g l : Sorted key_le l -> Sorted key_le (insert_by_date g l).
Proof.
  induction 1 as [| h t Ht IH Hh]; cbn [insert_by_date].
  - repeat constructor.
  - destruct (fst h <=? fst g) eqn:E.
    + apply Z.leb_le in E. constructor; [done |].
      destruct t as [| h' t]; cbn [insert_by_date].
      * constructor. exact E.
      * inversion Hh; subst. destruct (fst h' <=? fst g); constructor; done.
    + apply Z.leb_gt in E. constructor; [by constructor |].
      constructor. unfold key_le. lia.
Qed.

Lemma sort_by_date_go_sorted l acc :
  Sorted key_le acc -> Sorted key_le (fold_left (fun acc g => insert_by_date g acc) l acc).
Proof.
  revert acc. induction l as [| g l IH]; intros acc Hacc; cbn [fold_left]; [done |].
  apply IH, insert_by_date_sorted, Hacc.
Qed.

Lemma strongly_sorted_keys_lt (l : list (NaiveDate * list Session.t)) :
  StronglySorted key_le l -> NoDup (map fst l) ->
  StronglySorted (fun a b => fst a < fst b) l.
Proof.
  induction 1 as [| a l Hl IH Ha]; intros Hnd; constructor.
  - apply IH. by apply NoDup_cons in Hnd as [_ ?].
  - apply NoDup_cons in Hnd as [Hn _].
    apply Forall_forall. intros b Hb. pose proof (proj1 (Forall_forall _ _) Ha b Hb) as Hab.
    unfold key_le in Hab. assert (fst a <> fst b); [| lia].
    intros Heq. apply Hn. rewrite Heq. apply elem_of_map. by exists b.
Qed.

Lemma canon_keys p : map fst (canon p) = first_seen [] (map session_date p).
Proof. unfold canon. rewrite map_map. apply map_id. Qed.

Lemma group_by_date_canon (self : SessionList) :
  group_by_date self = sort_by_date (canon (session_list_vec self)).
Proof. unfold group_by_date. by rewrite group_loop_canon. Qed.

(** [SessionList::group_by_date]: the groups come in strictly increasing
    date order (one group per date), and a date [d] has a group exactly
    when some session starts on it; that group holds the sessions of [d]
    in their list order. *)
Theorem X_group_by_date (self : SessionList) :
  StronglySorted (fun a b => fst a < fst b) (group_by_date self) /\
  (forall d g, (d, g) ∈ group_by_date self <->
     (exists s, s ∈ session_list_vec self /\ date (Session.pre_show_start_time s) = d) /\
     g = filter (fun s => date (Session.pre_show_start_time s) = d) (session_list_vec self)).
Proof.
  rewrite group_by_date_canon. set (p := session_list_vec self).
  pose proof (sort_by_date_go_perm (canon p) []) as Hperm. rewrite app_nil_r in Hperm.
  fold (sort_by_date (canon p)) in Hperm.
  destruct (first_seen_spec [] (map session_date p)) as [Hnd Hin].
  split.
  - apply strongly_sorted_keys_lt.
    + apply Sorted_StronglySorted; [intros x y z; unfold key_le; lia |].
      apply sort_by_date_go_sorted. constructor.
    + rewrite Hperm, canon_keys. exact Hnd.
  - intros d g. rewrite Hperm. unfold canon. rewrite elem_of_map.
    split.
    + intros (d0 & Heq & Hd0). injection Heq as -> ->.
      apply Hin in Hd0 as [Hd0 _]. apply elem_of_map in Hd0 as (s & -> & Hs).
      split; [by exists s |]. reflexivity.
    + intros [(s & Hs & Hd) ->]. exists d. split; [done |].
      apply Hin. split; [| intros Hn; by apply elem_of_nil in Hn].
      apply elem_of_map. exists s. done.
Qed.

Lemma filter_all_false {A} (P : A -> Prop) `{forall x, Decision (P x)} (l : list A) :
  (forall x, x ∈ l -> ~ P x) -> filter P l = [].
Proof.
  induction l as [| x l IH]; intros Hl; [done |]. rewrite filter_cons.
  rewrite decide_False by (apply Hl; by left). apply IH. intros y Hy. apply Hl. by right.
Qed.

Lemma filter_spec {A} (P : A -> Prop) `{forall x, Decision (P x)} (l : list A) :
  filter P l `sublist_of` l /\ (forall a, a ∈ filter P l <-> a ∈ l /\ P a).
Proof.
  split; [apply sublist_filter |]. intros a. rewrite list_elem_of_filter. tauto.
Qed.

(** [SessionList::filter_by_screen], [filter_by_film],
    [filter_containing_attribute], [filter_by_time_range]: each keeps the
    sessions of its input, in their order, that meet its test, and no
    other session. *)
Theorem X_session_filters (self : SessionList) (screen_id : ScreenId) (film_id : FilmId)
    (attribute_id : AttributeId) (start end_ : NaiveDateTime) :
  (session_list_vec (filter_by_screen self screen_id) `sublist_of` session_list_vec self /\
   forall s, s ∈ session_list_vec (filter_by_screen self screen_id) <->
     s ∈ session_list_vec self /\ Session.screen_id s = screen_id) /\
  (session_list_vec (filter_by_film self film_id) `sublist_of` session_list_vec self /\
   forall s, s ∈ session_list_vec (filter_by_film self film_id) <->
     s ∈ session_list_vec self /\ Session.film_id s = film_id) /\
  (session_list_vec (filter_containing_attribute self attribute_id) `sublist_of` session_list_vec self /\
   forall s, s ∈ session_list_vec (filter_containing_attribute self attribute_id) <->
     s ∈ session_list_vec self /\ attribute_id ∈ Session.attributes s) /\
  (session_list_vec (filter_by_time_range self start end_) `sublist_of` session_list_vec self /\
   forall s, s ∈ session_list_vec (filter_by_time_range self start end_) <->
     s ∈ session_list_vec self /\ start <= Session.pre_show_start_time s <= end_).
Proof.
  cbn [session_list_vec filter_by_screen filter_by_film filter_containing_attribute filter_by_time_range].
  unfold filter_by_screen, filter_by_film, filter_containing_attribute, filter_by_time_range; cbn [session_list_vec].
  split; [apply filter_spec |]. split; [apply filter_spec |]. split; [apply filter_spec |].
  split; [apply sublist_filter |].
  intros s. rewrite list_elem_of_filter. cbv zeta. rewrite Is_true_true, andb_true_iff, !Z.leb_le. tauto.
Qed.

(** [SessionList::filter_by_time_range] composes as the intersection of
    the two ranges, and its result is empty when [end_ < start]. *)
Theorem X_time_range_compose (self : SessionList) (a b c d : NaiveDateTime) :
  filter_by_time_range (filter_by_time_range self a b) c d =
    filter_by_time_range self (Z.max a c) (Z.min b d) /\
  (b < a -> session_list_vec (filter_by_time_range self a b) = []).
Proof.
  unfold filter_by_time_range; cbn [session_list_vec]. split.
  - f_equal. rewrite list_filter_filter. apply list_filter_iff. intros s. cbv zeta.
    rewrite !Is_true_true, !andb_true_iff, !Z.leb_le. lia.
  - intros Hba. apply filter_all_false. intros s _. cbv zeta.
    rewrite Is_true_true, andb_true_iff, !Z.leb_le. lia.
Qed.

Lemma find_split {A} (p : A -> bool) (l : list A) :
  match find p l with
  | Some a => exists l1 l2, l = l1 ++ a :: l2 /\ p a = true /\ Forall (fun b => p b = false) l1
  | None => Forall (fun b => p b = false) l
  end.
Proof.
  induction l as [| x l IH]; cbn [find]; [constructor |].
  destruct (p x) eqn:Hx.
  - exists [], l. by repeat constructor.
  - destruct (find p l) as [a |].
    + destruct IH as (l1 & l2 & -> & Ha & Hl1). exists (x :: l1), l2. by repeat constructor.
    + by constructor.
Qed.

Lemma find_contract_of {A L} (m : M L) (iter : L -> list A) (key : A -> string)
    (f : string -> M (option A)) :
  (forall x env c, f x env c = (l ← m; mret (find (fun a => String.eqb (key a) x) (iter l))) env c) ->
  find_contract m iter key f.
Proof.
  intros Hf x env c r c' reqs Heq. rewrite Hf in Heq. cbv [mbind M_bind mret M_ret] in Heq.
  destruct (m env c) as [[[l | e] c1] r1]; [| by inversion Heq].
  rewrite app_nil_r in Heq. injection Heq as <- <- <-.
  pose proof (find_split (fun a => String.eqb (key a) x) (iter l)) as Hs.
  destruct (find _ (iter l)) as [a |].
  - destruct Hs as (l1 & l2 & Hl & Ha & Hl1). exists l, l1, l2.
    split; [done |]. split; [done |]. split; [by apply String.eqb_eq |].
    eapply Forall_impl; [exact Hl1 |]. cbv beta. intros b Hb. by apply String.eqb_neq.
  - exists l. split; [done |].
    eapply Forall_impl; [exact Hs |]. cbv beta. intros b Hb. by apply String.eqb_neq.
Qed.

Lemma filter_contract_of {A L R} (m : M L) (iter : L -> list A) (iterR : R -> list A)
    (P Q : A -> Prop) `{forall a, Decision (Q a)} (g : L -> R) (f : M R) :
  (forall env c, f env c = (l ← m; mret (g l)) env c) ->
  (forall l, iterR (g l) = filter Q (iter l)) ->
  (forall a, Q a <-> P a) ->
  filter_contract m iter iterR P f.
Proof.
  intros Hf Hg HQ env c r c' reqs Heq. rewrite Hf in Heq. cbv [mbind M_bind mret M_ret] in Heq.
  destruct (m env c) as [[[l | e] c1] r1]; [| by inversion Heq].
  rewrite app_nil_r in Heq. injection Heq as <- <- <-.
  exists l. split; [done |]. rewrite Hg. split; [apply sublist_filter |].
  intros a. rewrite list_elem_of_filter, HQ. tauto.
Qed.

(** The find queries of [Client] ([get_film_by_title],
    [get_film_by_short_name], [get_film_by_signage_text],
    [get_film_package_by_title], [get_screen_by_number],
    [get_attribute_by_short_name], [get_attribute_by_description]): each
    makes exactly the list call it wraps, returns its error unchanged, and
    on success returns the first entity whose field equals the argument, or
    [None] when no entity has it. *)
Theorem X_find_queries :
  find_contract list_films id Film.title get_film_by_title /\
  find_contract list_films id Film.short_name get_film_by_short_name /\
  find_contract list_films id Film.signage_text get_film_by_signage_text /\
  find_contract list_film_packages id FilmPackage.title get_film_package_by_title /\
  find_contract list_screens id Screen.screen_number get_screen_by_number /\
  find_contract list_attributes id Attribute.short_name get_attribute_by_short_name /\
  find_contract list_attributes id Attribute.description get_attribute_by_description.
Proof. repeat split; apply find_contract_of; reflexivity. Qed.

(** The filtering queries of [Client] ([list_films_by_genre],
    [list_films_by_distributor], [list_active_films],
    [list_film_packages_by_film_id]) and the session helpers of [Film],
    [Screen] and [Attribute]: each makes exactly the list call it wraps,
    returns its error unchanged, and on success returns, in list order, the
    listed entities that meet its test and no other. *)
Theorem X_filter_queries (genre distributor : string) (film_id : FilmId)
    (film : Film.t) (screen : Screen.t) (attribute : Attribute.t) :
  filter_contract list_films id id (fun f => Film.genre f = genre) (list_films_by_genre genre) /\
  filter_contract list_films id id (fun f => Film.distributor f = distributor)
    (list_films_by_distributor distributor) /\
  filter_contract list_films id id (fun f => Film.status f = FilmStatus.Active) list_active_films /\
  filter_contract list_film_packages id id
    (fun p => exists pf, pf ∈ FilmPackage.films p /\ pf_film_id pf = film_id)
    (list_film_packages_by_film_id film_id) /\
  filter_contract list_sessions session_list_vec session_list_vec
    (fun s => Session.film_id s = Film.id film) (Film_sessions film) /\
  filter_contract list_web_sessions session_list_vec session_list_vec
    (fun s => Session.film_id s = Film.id film) (Film_web_sessions film) /\
  filter_contract list_sessions session_list_vec session_list_vec
    (fun s => Session.screen_id s = Screen.id screen) (Screen_sessions screen) /\
  filter_contract list_sessions session_list_vec session_list_vec
    (fun s => Attribute.id attribute ∈ Session.attributes s) (Attribute_sessions attribute).
Proof.
  repeat split;
    (eapply filter_contract_of; [intros; reflexivity | intros; reflexivity | cbv beta]);
    try done.
  intros p. rewrite existsb_exists. split.
  - intros (pf & Hpf & Heq). exists pf. split; [by apply list_elem_of_In |].
    by apply bool_decide_eq_true in Heq.
  - intros (pf & Hpf & Heq). exists pf. split; [by apply list_elem_of_In |].
    by apply bool_decide_eq_true.
Qed.

Lemma get_batch_length {K} `{Countable K} {V} (io : ItemOps K V) ids env c vs c' r :
  get_batch io ids env c = (Ok vs, c', r) -> length vs = length ids.
Proof.
  revert c vs c' r. induction ids as [| k ks IH]; intros c vs c' r; cbn [get_batch].
  - cbv [mret M_ret]. intros Heq. by injection Heq as <- _ _.
  - cbv [mbind M_bind mret M_ret]. destruct (get_by_id io k env c) as [[[v | e] c1] r1]; [| done].
    destruct (get_batch io ks env c1) as [[[ws | e] c2] r2] eqn:Hb; [| done].
    intros Heq. injection Heq as <- _ _. cbn. f_equal. by eapply IH.
Qed.

(** [Client::get_films_batch] and [Client::get_sessions_batch]: fetching
    [xs ++ ys] is fetching [xs], then [ys] from the client that left, with
    the results concatenated (so the first failure stops the batch and is
    returned as is); a batch that succeeds returns one entity per id. *)
Theorem X_get_batch_app (xs ys : list FilmId) (ss ts : list SessionId) env c :
  get_films_batch (xs ++ ys) env c =
    (vs ← get_films_batch xs; ws ← get_films_batch ys; mret (vs ++ ws)) env c /\
  get_sessions_batch (ss ++ ts) env c =
    (vs ← get_sessions_batch ss; ws ← get_sessions_batch ts; mret (vs ++ ws)) env c /\
  (forall vs c' r, get_films_batch xs env c = (Ok vs, c', r) -> length vs = length xs) /\
  (forall vs c' r, get_sessions_batch ss env c = (Ok vs, c', r) -> length vs = length ss).
Proof.
  unfold get_films_batch, get_sessions_batch.
  split; [apply get_batch_app |]. split; [apply get_batch_app |].
  split; intros; by eapply get_batch_length.
Qed.

Lemma filter_by_time_range_vec self start end_ :
  session_list_vec (filter_by_time_range self start end_) =
  filter (fun s => start <= Session.pre_show_start_time s <= end_) (session_list_vec self).
Proof.
  unfold filter_by_time_range; cbn [session_list_vec]. apply list_filter_iff. intros s. cbv zeta.
  rewrite Is_true_true, andb_true_iff, !Z.leb_le. done.
Qed.

Lemma first_seen_nil_spec {A} `{EqDecision A} (l : list A) :
  NoDup (first_seen [] l) /\ (forall x, x ∈ first_seen [] l <-> x ∈ l).
Proof.
  destruct (first_seen_spec [] l) as [Hnd Hin]. split; [done |].
  intros x. rewrite Hin. split; [tauto |]. intros Hx; split; [done |]. intros Hn; by apply elem_of_nil in Hn.
Qed.

(** [SessionList::films]: it fetches, through [get_film] and in order of
    first appearance, each distinct film id of the sessions exactly once,
    which makes it the film batch of those ids; [list_films_now_showing]
    and [list_films_with_sessions_in_time_range] are the session listing
    followed by that batch (over the sessions in the range). *)
Theorem X_films_of_sessions (self : SessionList) (start end_ : NaiveDateTime) :
  NoDup (first_seen [] (map Session.film_id (session_list_vec self))) /\
  (forall i, i ∈ first_seen [] (map Session.film_id (session_list_vec self)) <->
     exists s, s ∈ session_list_vec self /\ Session.film_id s = i) /\
  (forall env c, SessionList_films self env c =
     get_films_batch (first_seen [] (map Session.film_id (session_list_vec self))) env c) /\
  (forall env c, list_films_now_showing env c =
     (sessions ← list_sessions;
      get_films_batch (first_seen [] (map Session.film_id (session_list_vec sessions)))) env c) /\
  (forall env c, list_films_with_sessions_in_time_range start end_ env c =
     (sessions ← list_sessions;
      get_films_batch (first_seen [] (map Session.film_id
        (filter (fun s => start <= Session.pre_show_start_time s <= end_)
           (session_list_vec sessions))))) env c).
Proof.
  destruct (first_seen_nil_spec (map Session.film_id (session_list_vec self))) as [Hnd Hin].
  split; [done |]. split.
  { intros i. rewrite Hin, elem_of_map. split; intros (s & ? & ?); by exists s. }
  split; [intros; apply films_go_batch |]. split.
  - intros env c. apply bind_ext. intros l env' c'. apply films_go_batch.
  - intros env c. apply bind_ext. intros l env' c'. unfold SessionList_films.
    rewrite films_go_batch, filter_by_time_range_vec. reflexivity.
Qed.

(** [SessionList::screens]: it fetches, through [get_screen] and in order
    of first appearance, each distinct screen id of the sessions exactly
    once. *)
Theorem X_screens_of_sessions (self : SessionList) :
  NoDup (first_seen [] (map Session.screen_id (session_list_vec self))) /\
  (forall i, i ∈ first_seen [] (map Session.screen_id (session_list_vec self)) <->
     exists s, s ∈ session_list_vec self /\ Session.screen_id s = i) /\
  (forall env c, SessionList_screens self env c =
     get_batch screen_item_ops (first_seen [] (map Session.screen_id (session_list_vec self))) env c).
Proof.
  destruct (first_seen_nil_spec (map Session.screen_id (session_list_vec self))) as [Hnd Hin].
  split; [done |]. split.
  { intros i. rewrite Hin, elem_of_map. split; intros (s & ? & ?); by exists s. }
  intros; apply screens_go_batch.
Qed.

Lemma apply_cache_op_comm {K} `{Countable K} {V} (x y : cache_op K) (o : option (Cache K V)) :
  apply_cache_op x (apply_cache_op y o) = apply_cache_op y (apply_cache_op x o).
Proof.
  destruct o as [lc |]; [| by destruct x, y]. destruct x, y; cbn; try reflexivity.
  unfold cache_invalidate, with_entries; cbn. by rewrite delete_delete.
Qed.

Lemma apply_cache_op_idem {K} `{Countable K} {V} (x : cache_op K) (o : option (Cache K V)) :
  apply_cache_op x (apply_cache_op x o) = apply_cache_op x o.
Proof.
  destruct o as [lc |]; [| by destruct x]. destruct x; cbn; try reflexivity.
  unfold cache_invalidate, with_entries; cbn. by rewrite delete_delete_eq.
Qed.

Lemma apply_cache_op_clear {K} `{Countable K} {V} (x : cache_op K) (o : option (Cache K V)) :
  apply_cache_op Clear (apply_cache_op x o) = apply_cache_op Clear o.
Proof. destruct o as [lc |]; [| by destruct x]. by destruct x. Qed.

Lemma run_invalidation_ops i c : run_invalidation i c = apply_ops (invalidation_ops i) c.
Proof.
  destruct i; cbn [run_invalidation];
    [rewrite invalidate_all_caches_eq; by destruct c |..];
  revert c; intros [];
  cbv [invalidate_cached_session invalidate_all_cached_sessions
       invalidate_all_cached_web_sessions invalidate_cached_film
       invalidate_all_cached_films invalidate_cached_film_package
       invalidate_all_cached_film_packages invalidate_cached_screen
       invalidate_all_cached_screens invalidate_cached_attribute
       invalidate_all_cached_attributes invalidate_cached_site
       invalidate_cached invalidate_all_cached
       invalidation_ops apply_ops apply_cache_op option_map];
  repeat (unfold_setters;
          match goal with
          | |- context [match ?x with Some _ => _ | None => _ end] => is_var x; destruct x
          end);
  unfold_setters; reflexivity.
Qed.

(** Every invalidation method of [Client] acts cache by cache, as given by
    [invalidation_ops]: the by-id methods drop the id from their entity's
    cache and clear that entity's list cache, the invalidate-all methods
    clear both, [invalidate_all_cached_web_sessions] and
    [invalidate_cached_site] clear their single cache, and
    [invalidate_all_caches] clears all twelve. No other cache, nor the base
    URL or the token, is touched. *)
Theorem X_invalidation_table (i : Invalidation) (c : Client) :
  run_invalidation i c = apply_ops (invalidation_ops i) c.
Proof. apply run_invalidation_ops. Qed.

(** The invalidation methods of [Client] commute with each other, each one
    is idempotent, and [invalidate_all_caches] after any of them is
    [invalidate_all_caches] alone; none changes the base URL or the
    token. *)
Theorem X_invalidation_algebra :
  (forall i j c, run_invalidation i (run_invalidation j c) = run_invalidation j (run_invalidation i c)) /\
  (forall i c, run_invalidation i (run_invalidation i c) = run_invalidation i c) /\
  (forall i c, invalidate_all_caches (run_invalidation i c) = invalidate_all_caches c) /\
  (forall i c, base (run_invalidation i c) = base c /\ token (run_invalidation i c) = token c).
Proof.
  split; [| split; [| split]].
  - intros i j c. rewrite !run_invalidation_ops. destruct c. unfold apply_ops; cbn.
    f_equal; apply apply_cache_op_comm.
  - intros i c. rewrite !run_invalidation_ops. destruct c. unfold apply_ops; cbn.
    f_equal; apply apply_cache_op_idem.
  - intros i c. change (invalidate_all_caches (run_invalidation i c))
      with (run_invalidation InvalidateAllCaches (run_invalidation i c)).
    change (invalidate_all_caches c) with (run_invalidation InvalidateAllCaches c).
    rewrite !run_invalidation_ops. destruct c. unfold apply_ops; cbn.
    f_equal; apply apply_cache_op_clear.
  - intros i c. rewrite run_invalidation_ops. by destruct c.
Qed.

(** The setters of [ClientBuilder]: [with_default_caching] sets all six
    configurations whatever was set before, each [with_*_cache] overrides
    an earlier call of itself, and setters of different types commute
    (shown for the session setter against the others). *)
Theorem X_builder_setters (b : ClientBuilder) (t t' : Z) (m m' : N) :
  with_default_caching b = builder_with_default_caching (base_url b) (builder_token b) /\
  with_session_cache t m (with_session_cache t' m' b) = with_session_cache t m b /\
  with_film_cache t m (with_film_cache t' m' b) = with_film_cache t m b /\
  with_film_package_cache t m (with_film_package_cache t' m' b) = with_film_package_cache t m b /\
  with_screen_cache t m (with_screen_cache t' m' b) = with_screen_cache t m b /\
  with_attribute_cache t m (with_attribute_cache t' m' b) = with_attribute_cache t m b /\
  with_site_cache t (with_site_cache t' b) = with_site_cache t b /\
  with_session_cache t m (with_film_cache t' m' b) = with_film_cache t' m' (with_session_cache t m b) /\
  with_session_cache t m (with_film_package_cache t' m' b) =
    with_film_package_cache t' m' (with_session_cache t m b) /\
  with_session_cache t m (with_screen_cache t' m' b) = with_screen_cache t' m' (with_session_cache t m b) /\
  with_session_cache t m (with_attribute_cache t' m' b) =
    with_attribute_cache t' m' (with_session_cache t m b) /\
  with_session_cache t m (with_site_cache t' b) = with_site_cache t' (with_session_cache t m b).
Proof. destruct b. repeat split. Qed.

Lemma list_all_uncached {K} `{Countable K} {V L} (o : ListOps K V L) env c :
  lo_list_cache o c = None ->
  list_all o env c = list_fetch_raw o env c /\
  (let '(_, c', _) := list_all o env c in c' = c).
Proof.
  intros Hn. rewrite list_all_eq, Hn. split; [done |].
  destruct (list_fetch_raw o env c) as [[r c'] q] eqn:E. by apply list_fetch_raw_client in E.
Qed.

Lemma get_by_id_uncached {K} `{Countable K} {V} (o : ItemOps K V) k env c :
  io_cache o c = None ->
  get_by_id o k env c = item_fetch_raw o k env c /\
  (let '(_, c', _) := get_by_id o k env c in c' = c).
Proof.
  intros Hn. rewrite get_by_id_eq, Hn. split; [done |].
  destruct (item_fetch_raw o k env c) as [[r c'] q] eqn:E. by apply item_fetch_raw_client in E.
Qed.

(** A client built from [ClientBuilder::new] (no caching configured)
    answers every list and get call with the plain request and never
    changes. *)
Theorem X_uncached_client (pol : EvictionPolicy) (u t : string) (c : Client)
    (Hc : build pol (ClientBuilder_new u t) = Ok c) (env : Env) (sid : SessionId) (fid : FilmId)
    (pid : FilmPackageId) (scid : ScreenId) (aid : AttributeId) :
  uncached_call list_sessions (list_fetch_raw session_list_ops) env c /\
  uncached_call list_web_sessions (list_fetch_raw web_session_list_ops) env c /\
  uncached_call list_films (list_fetch_raw film_list_ops) env c /\
  uncached_call list_film_packages (list_fetch_raw film_package_list_ops) env c /\
  uncached_call list_screens (list_fetch_raw screen_list_ops) env c /\
  uncached_call list_attributes (list_fetch_raw attribute_list_ops) env c /\
  uncached_call (get_session sid) (item_fetch_raw session_item_ops sid) env c /\
  uncached_call (get_film fid) (item_fetch_raw film_item_ops fid) env c /\
  uncached_call (get_film_package pid) (item_fetch_raw film_package_item_ops pid) env c /\
  uncached_call (get_screen scid) (item_fetch_raw screen_item_ops scid) env c /\
  uncached_call (get_attribute aid) (item_fetch_raw attribute_item_ops aid) env c /\
  uncached_call get_site (item_fetch_raw site_item_ops tt) env c.
Proof.
  unfold build, from_builder, ClientBuilder_new in Hc. cbn in Hc.
  destruct (url_parse u) as [bu | e]; [| discriminate]. injection Hc as <-.
  unfold uncached_call.
  repeat split;
    first [apply list_all_uncached; reflexivity | apply get_by_id_uncached; reflexivity].
Qed.

Lemma X_uncached_client_witness :
  exists c, build first_key_policy (ClientBuilder_new "https://api.us.veezi.com/" "token") = Ok c /\
  uncached_call list_sessions (list_fetch_raw session_list_ops) sample_env c.
Proof.
  eexists. split; [reflexivity |].
  exact (proj1 (X_uncached_client first_key_policy "https://api.us.veezi.com/" "token" _
    eq_refl sample_env (MkSessionId 1) (MkFilmId "1") (MkFilmPackageId 1) (MkScreenId 1)
    (MkAttributeId "1"))).
Defined.

Lemma pretty_N_go_digits x s : all_digits s -> all_digits (pretty_N_go x s).
Proof.
  revert s. induction (N.lt_wf_0 x) as [x _ IH]; intros s Hs.
  destruct (decide (x = 0%N)) as [-> | Hx]; [by rewrite pretty_N_go_0 |].
  rewrite pretty_N_go_step by lia. apply IH; [apply N.div_lt; lia |].
  cbn. split; [eexists; reflexivity | exact Hs].
Qed.

Lemma pretty_digits (n : N) : all_digits (pretty n).
Proof.
  unfold pretty, pretty_N. case_decide.
  - cbn. split; [exists 0%N; reflexivity | done].
  - apply pretty_N_go_digits. done.
Qed.

Lemma digit_not (ch : Ascii.ascii) n :
  ch <> "0"%char -> ch <> "1"%char -> ch <> "2"%char -> ch <> "3"%char -> ch <> "4"%char ->
  ch <> "5"%char -> ch <> "6"%char -> ch <> "7"%char -> ch <> "8"%char -> ch <> "9"%char ->
  ch <> pretty_N_char n.
Proof. intros. unfold pretty_N_char. by repeat case_match. Qed.

Lemma split_at_non_digit (ch : Ascii.ascii) (a b x y : string) :
  (forall n, ch <> pretty_N_char n) -> all_digits a -> all_digits b ->
  String.append a (String ch x) = String.append b (String ch y) -> a = b /\ x = y.
Proof.
  intros Hch. revert b. induction a as [| ca a IH]; intros [| cb b] Ha Hb Heq; cbn in *.
  - by injection Heq.
  - injection Heq as -> _. destruct Hb as [[n ->] _]. by destruct (Hch n).
  - injection Heq as <- _. destruct Ha as [[n ->] _]. by destruct (Hch n).
  - injection Heq as -> Heq. destruct (IH b) as [-> ->]; [tauto | tauto | done | done].
Qed.

Lemma h_not_digit n : "h"%char <> pretty_N_char n.
Proof. apply digit_not; discriminate. Qed.
Lemma m_not_digit n : "m"%char <> pretty_N_char n.
Proof. apply digit_not; discriminate. Qed.

(** [Film::formatted_duration] loses nothing: two films have the same
    formatted duration exactly when they have the same duration. *)
Theorem X_formatted_duration_inj (f1 f2 : Film.t) :
  formatted_duration f1 = formatted_duration f2 <-> Film.duration f1 = Film.duration f2.
Proof.
  split; [| unfold formatted_duration; by intros ->].
  unfold formatted_duration. cbv zeta.
  set (d1 := Film.duration f1). set (d2 := Film.duration f2).
  pose proof (N.div_mod d1 60 ltac:(lia)) as E1. pose proof (N.div_mod d2 60 ltac:(lia)) as E2.
  pose proof (pretty_digits (d1 / 60)) as P1. pose proof (pretty_digits (d2 / 60)) as P2.
  case_bool_decide as Z1; case_bool_decide as Z2; intros Heq.
  - apply (split_at_non_digit "h" _ _ "" "" h_not_digit P1 P2) in Heq as [Hh _].
    apply (inj pretty) in Hh. lia.
  - apply (split_at_non_digit "h" _ _ _ _ h_not_digit P1 P2) in Heq as [_ Hx]. discriminate.
  - apply (split_at_non_digit "h" _ _ _ _ h_not_digit P1 P2) in Heq as [_ Hx]. discriminate.
  - apply (split_at_non_digit "h" _ _ _ _ h_not_digit P1 P2) in Heq as [Hh Hx].
    apply (inj pretty) in Hh. injection Hx as Hx.
    apply (split_at_non_digit "m" _ _ "" "" m_not_digit (pretty_digits _) (pretty_digits _)) in Hx
      as [Hm _].
    apply (inj pretty) in Hm. lia.
Qed.

Lemma concat_map_nil_iff {A} (g : A -> string) (l : list A) :
  (forall a, g a <> EmptyString) -> String.concat ", " (map g l) = EmptyString <-> l = [].
Proof.
  intros Hg. split; [| by intros ->].
  destruct l as [| a [| b l]]; cbn; [done | ..].
  - intros E. by destruct (Hg a).
  - intros E. destruct (g a) eqn:Ea; [by destruct (Hg a) | discriminate].
Qed.

Lemma person_display_nonempty p : person_display p <> EmptyString.
Proof. unfold person_display. destruct (first_name p); discriminate. Qed.

(** [Film::is_3d] and [Film::is_2d] never both hold; [Film::actors] and
    [Film::directors] keep, in order, the people of the film with role
    "Actor" (resp. "Director"), so no person is in both; the formatted
    lists are empty exactly when there is no such person. *)
Theorem X_film_people (f : Film.t) :
  ~ (is_3d f = true /\ is_2d f = true) /\
  actors f `sublist_of` Film.people f /\
  (forall p, p ∈ actors f <-> p ∈ Film.people f /\ role p = "Actor") /\
  directors f `sublist_of` Film.people f /\
  (forall p, p ∈ directors f <-> p ∈ Film.people f /\ role p = "Director") /\
  (forall p, p ∈ actors f -> p ∉ directors f) /\
  (actors_formatted f = EmptyString <-> actors f = []) /\
  (directors_formatted f = EmptyString <-> directors f = []).
Proof.
  split; [unfold is_3d, is_2d; destruct (Film.format f); intros [? ?]; discriminate |].
  unfold actors_formatted, directors_formatted, actors, directors.
  split; [apply sublist_filter |]. split; [intros p; rewrite list_elem_of_filter; tauto |].
  split; [apply sublist_filter |]. split; [intros p; rewrite list_elem_of_filter; tauto |].
  split.
  { intros p Ha Hd. apply list_elem_of_filter in Ha as [Ha _], Hd as [Hd _].
    rewrite Ha in Hd. discriminate. }
  split; apply concat_map_nil_iff, person_display_nonempty.
Qed.

Lemma session_attributes_go_batch acc ids env c :
  session_attributes_go acc ids env c =
  (vs ← get_batch attribute_item_ops ids; mret (acc ++ vs)) env c.
Proof.
  revert acc c. induction ids as [| i ids IH]; intros acc c; cbn [session_attributes_go get_batch].
  - cbv [mbind M_bind mret M_ret]. by rewrite !app_nil_r.
  - unfold get_attribute. cbv [mbind M_bind mret M_ret] in *.
    destruct (get_by_id attribute_item_ops i env c) as [[[v | e] c1] r1]; [| done].
    rewrite IH. destruct (get_batch attribute_item_ops ids env c1) as [[[vs | e] c2] r2]; cbn;
      by rewrite ?app_nil_r, <- ?app_assoc.
Qed.

(** [Session::film_package]: a session without a package answers [None]
    with no request and the client unchanged, otherwise it is
    [get_film_package] of its package id, wrapped in [Some].
    [Session::attributes]: it fetches the session's attribute ids one by
    one, in order, stopping at the first failure, which is the attribute
    batch of those ids; on success there is one attribute per id. *)
Theorem X_session_helpers (s : Session.t) env c :
  Session_film_package s env c =
    match Session.film_package_id s with
    | None => (Ok None, c, [])
    | Some id =>
        match get_film_package id env c with
        | (Ok p, c', r) => (Ok (Some p), c', r)
        | (Err e, c', r) => (Err e, c', r)
        end
    end /\
  Session_attributes s env c = get_batch attribute_item_ops (Session.attributes s) env c /\
  (forall vs c' r, Session_attributes s env c = (Ok vs, c', r) ->
     length vs = length (Session.attributes s)).
Proof.
  assert (Hb : Session_attributes s env c = get_batch attribute_item_ops (Session.attributes s) env c).
  { unfold Session_attributes. rewrite session_attributes_go_batch. cbv [mbind M_bind mret M_ret].
    destruct (get_batch attribute_item_ops (Session.attributes s) env c) as [[[vs | e] c2] r2];
      by rewrite ?app_nil_r. }
  split; [| split; [exact Hb |]].
  - unfold Session_film_package. destruct (Session.film_package_id s) as [id |]; [| reflexivity].
    cbv [mbind M_bind mret M_ret]. destruct (get_film_package id env c) as [[[p | e] c1] r1];
      by rewrite ?app_nil_r.
  - intros vs c' r. rewrite Hb. apply get_batch_length.
Qed.

Lemma list_all_repeat {K} `{Countable K} {V L} (o : ListOps K V L) :
  list_ops_lawful o -> repeat_served (list_all o) (lo_list_cache o).
Proof.
  intros Hl env c lc l c' reqs env' Hlc Hmiss Hrun Ht.
  destruct (list_all_miss o env c lc l c' reqs Hlc Hmiss Hrun) as [_ Hc'].
  assert (Hlc' : lo_list_cache o c' = Some (cache_insert (now env) tt l lc)).
  { rewrite Hc'. destruct (lo_item_cache o _); rewrite ?(ll_list_set_item o Hl); apply (ll_list_set o Hl). }
  rewrite list_all_eq, Hlc'. unfold cache_get. rewrite cache_insert_lookup_eq, cache_insert_time_to_live.
  rewrite (proj2 (Z.ltb_lt _ _) Ht). reflexivity.
Qed.

(** The six list calls of [Client]: after a list-cache miss that
    succeeds, the same call on the client it leaves returns the same list
    with no request and changes nothing, as long as the time is before the
    insertion time plus the list cache's TTL. *)
Theorem X_list_repeat :
  repeat_served list_sessions session_list_cache /\
  repeat_served list_web_sessions web_session_list_cache /\
  repeat_served list_films film_list_cache /\
  repeat_served list_film_packages film_package_list_cache /\
  repeat_served list_screens screen_list_cache /\
  repeat_served list_attributes attribute_list_cache.
Proof.
  repeat split; apply list_all_repeat;
    first [apply session_list_ops_lawful | apply web_session_list_ops_lawful |
           apply film_list_ops_lawful | apply film_package_list_ops_lawful |
           apply screen_list_ops_lawful | apply attribute_list_ops_lawful].
Qed.

Lemma X_list_repeat_witness :
  exists l c' reqs,
    list_sessions sample_env (sample_client 10 10) = (Ok l, c', reqs) /\
    list_sessions (MkEnv 1020 (net sample_env)) c' = (Ok l, c', []).
Proof.
  do 3 eexists. split; [reflexivity |].
  eapply (proj1 X_list_repeat sample_env (sample_client 10 10)); [reflexivity | reflexivity | reflexivity | cbn; lia].
Defined.

(** A "list all" followed by "get by id" for its members, for sessions,
    films, film packages, screens and attributes with both caches
    configured: a successful list-cache miss makes exactly one Transport
    call, and when the item cache has room for the whole list (so no
    maintenance pass of the cache evicts a member), getting the members'
    ids within the item cache's time-to-live of the list call makes no
    Transport call and leaves the client unchanged. *)
Theorem X_list_then_get_one_call :
  list_then_get_contract session_list_ops session_item_ops /\
  list_then_get_contract film_list_ops film_item_ops /\
  list_then_get_contract film_package_list_ops film_package_item_ops /\
  list_then_get_contract screen_list_ops screen_item_ops /\
  list_then_get_contract attribute_list_ops attribute_item_ops.
Proof.
  repeat apply conj; apply list_then_get_ok; auto with lawful;
    first [apply share_session | apply share_film | apply share_film_package
          | apply share_screen | apply share_attribute].
Qed.
